(** * Cobbl SDK: error classification, request validation and the two clients

    A shallow embedding of [errors.ts], [validation.ts], [admin.ts] and
    [public.ts], and the properties of the specification proved (or refuted)
    on it.

    Conventions of the embedding.
    - A JavaScript string is a [string]: a sequence of code units, here the
      8-bit ones.  White space is the part of ECMAScript's WhiteSpace and
      LineTerminator sets that lies below 256.
    - A value produced by [JSON.parse] is a [json].  An object is a finite
      map from property names to values ([gmap string json]); property order
      is not observable by any code modelled here.  [JNum] carries the
      integer-valued numbers that print in plain decimal; fractions and
      magnitudes printed with an exponent are left out.
    - [option json] is "a value or [undefined]".
    - A computation that may throw returns an [outcome]; a computation that
      may also call [fetch] threads the list of requests issued so far.
    - [JSON.stringify] is modelled by the document it writes, not by its
      text.  The 30 s abort timer is not modelled: an abort is one of the
      ways [fetch] rejects. *)

From stdpp Require Import base option list strings gmap fin_maps pretty.
From Stdlib Require Import ZArith Ascii String Lia.

Set Warnings "-register-all".

Open Scope string_scope.
Open Scope Z_scope.

(** ** Strings *)

Module Str.

(** ECMAScript white space and line terminators among the 8-bit code
    units: TAB, LF, VT, FF, CR, SP and NBSP. *)
Definition is_white_space (c : ascii) : bool :=
  let n := N_of_ascii c in
  ((n =? 9) || (n =? 10) || (n =? 11) || (n =? 12) || (n =? 13)
   || (n =? 32) || (n =? 160))%N.

(** [String.prototype.trimStart]. *)
Fixpoint trim_start (s : string) : string :=
  match s with
  | EmptyString => EmptyString
  | String c s' => if is_white_space c then trim_start s' else s
  end.

(** [String.prototype.trimEnd]: the longest prefix that does not end in
    white space. *)
Fixpoint trim_end (s : string) : string :=
  match s with
  | EmptyString => EmptyString
  | String c s' =>
      match trim_end s' with
      | EmptyString => if is_white_space c then EmptyString
                       else String c EmptyString
      | t => String c t
      end
  end.

(** [String.prototype.trim]. *)
Definition trim (s : string) : string := trim_end (trim_start s).

(** [s.trim().length === 0]. *)
Definition blank (s : string) : bool :=
  (String.length (trim s) =? 0)%nat.

(** JavaScript truthiness of a string. *)
Definition truthy (s : string) : bool :=
  match s with EmptyString => false | _ => true end.

(** [!s || s.trim().length === 0] for an [s] that may be [undefined]. *)
Definition missing (s : option string) : bool :=
  match s with
  | None => true
  | Some s => negb (truthy s) || blank s
  end.

(** Every code unit is white space. *)
Fixpoint all_white (s : string) : bool :=
  match s with
  | EmptyString => true
  | String c s' => is_white_space c && all_white s'
  end.

End Str.

(** ** JSON values *)

Inductive json : Type :=
| JNull
| JBool (b : bool)
| JNum (n : Z)
| JStr (s : string)
| JArr (l : list json)
| JObj (m : gmap string json).

(** ** Thrown values and outcomes *)

(** [CobblErrorCode]. *)
Inductive CobblErrorCode : Type :=
| INVALID_CONFIG
| INVALID_REQUEST
| UNAUTHORIZED
| FORBIDDEN
| NOT_FOUND
| ARCHIVED
| RATE_LIMIT_EXCEEDED
| SERVER_ERROR
| NETWORK_ERROR
| API_ERROR.

(** An instance of [CobblError]; [details = None] is [undefined]. *)
Record CobblError : Type := mkCobblError {
  message : string;
  code : CobblErrorCode;
  details : option json
}.

(** What a [throw] (or a rejected promise) carries. *)
Inductive thrown : Type :=
| ThrowCobbl (e : CobblError)      (* [instanceof CobblError] *)
| ThrowError (msg : string)        (* any other [instanceof Error] *)
| ThrowValue (v : option json).    (* anything that is not an [Error] *)

Inductive outcome (A : Type) : Type :=
| Return (a : A)
| Throw (t : thrown).
Arguments Return {A} a.
Arguments Throw {A} t.

#[global] Instance outcome_ret : MRet outcome := @Return.
#[global] Instance outcome_bind : MBind outcome := fun A B f x =>
  match x with
  | Return a => f a
  | Throw t => Throw t
  end.

Module Js.

(** JavaScript truthiness ([ToBoolean]) of a parsed value. *)
Definition truthy (v : json) : bool :=
  match v with
  | JNull => false
  | JBool b => b
  | JNum n => negb (n =? 0)
  | JStr s => Str.truthy s
  | JArr _ | JObj _ => true
  end.

(** Decimal form of an integer, as [Number.prototype.toString] prints it. *)
Definition number_to_string (n : Z) : string := pretty n.

Definition join_comma (l : list string) : string :=
  match l with
  | [] => ""
  | s :: l' => fold_left (fun acc t => acc +:+ "," +:+ t) l' s
  end.

(** The [TypeError] of [OrdinaryToPrimitive] finding no usable method
    (V8 wording). *)
Definition not_primitive_error : thrown :=
  ThrowError "Cannot convert object to primitive value".

(** [ToString]: what [String(v)], a template literal or [super(message)]
    makes of a value.  An array prints its elements separated by commas,
    with [null] printed as the empty string.  A parsed object prints as
    [Object.prototype.toString] does, unless a member of its own named
    [toString] hides that method: no parsed value is callable, and the
    conversion throws. *)
Fixpoint to_string (v : json) : outcome string :=
  match v with
  | JNull => Return "null"
  | JBool true => Return "true"
  | JBool false => Return "false"
  | JNum n => Return (number_to_string n)
  | JStr s => Return s
  | JArr l =>
      match
        (fix elems (l : list json) : outcome (list string) :=
           match l with
           | [] => Return []
           | x :: l' =>
               match match x with
                     | JNull => Return ""
                     | _ => to_string x
                     end
               with
               | Throw t => Throw t
               | Return s =>
                   match elems l' with
                   | Throw t => Throw t
                   | Return ss => Return (s :: ss)
                   end
               end
           end) l
      with
      | Throw t => Throw t
      | Return ss => Return (join_comma ss)
      end
  | JObj m =>
      match m !! "toString" with
      | Some _ => Throw not_primitive_error
      | None => Return "[object Object]"
      end
  end.

(** Truthiness of a value that may be [undefined]. *)
Definition truthy_opt (v : option json) : bool :=
  match v with Some v => truthy v | None => false end.

(** [a || b]. *)
Definition or_else (a b : option json) : option json :=
  if truthy_opt a then a else b.

(** Index keys ["0"], ["1"], ... paired with the elements of a list. *)
Definition indexed {A} (f : A → json) (l : list A) : gmap string json :=
  list_to_map (imap (fun i x => (pretty i, f x)) l).

(** The own enumerable properties that object spread [{...v}] copies:
    those of an object, the elements of an array, the code units of a
    string; nothing for [undefined], [null], booleans and numbers. *)
Definition own_props (v : option json) : gmap string json :=
  match v with
  | Some (JObj m) => m
  | Some (JArr l) => indexed id l
  | Some (JStr s) =>
      indexed (fun c => JStr (String c EmptyString)) (list_ascii_of_string s)
  | _ => ∅
  end.

End Js.

(** [CobblError.isCobblError]. *)
Definition isCobblError (t : thrown) : bool :=
  match t with ThrowCobbl _ => true | _ => false end.

(** ** Responses *)

(** What [response.json()] settles to. *)
Inductive parse_result : Type :=
| Parsed (v : json)
| ParseFails (msg : string).       (* rejects with an [Error] carrying [msg] *)

(** The part of a fetch [Response] the SDK reads. *)
Record Response : Type := mkResponse {
  ok : bool;
  status : Z;
  statusText : string;
  json_result : parse_result
}.

(** The [TypeError] of reading a property of [null]; the text is the
    engine's (V8 wording). *)
Definition null_property_error (k : string) : thrown :=
  ThrowError ("Cannot read properties of null (reading '" +:+ k +:+ "')").

(** Property read [v.k] on a parsed value, for property names that no
    prototype defines ([error], [message], [details], [runId], ...):
    an own property of an object, [undefined] on any other value, and a
    [TypeError] on [null]. *)
Definition get_prop (v : json) (k : string) : outcome (option json) :=
  match v with
  | JNull => Throw (null_property_error k)
  | JObj m => Return (m !! k)
  | _ => Return None
  end.

(** ** errors.ts *)

(** [new CobblError(message, code, details)] for a [message] that need
    not be a string: [super(message)] stores [ToString(message)], and
    leaves the prototype's empty message when it gets [undefined]. *)
Definition CobblError_new (message : option json) (code : CobblErrorCode)
    (details : option json) : outcome CobblError :=
  match message with
  | None => Return (mkCobblError "" code details)
  | Some v =>
      text ← Js.to_string v;
      Return (mkCobblError text code details)
  end.

(** [handleErrorResponse].  The three members are read up front: reading
    a property of a parsed value has no effect, and on [null] the first
    read already throws. *)
Definition handleErrorResponse (response : Response) : outcome unit :=
  match json_result response with
  | ParseFails _ =>
      Throw (ThrowCobbl
        (mkCobblError
           ("HTTP " +:+ Js.number_to_string (status response) +:+ ": "
              +:+ statusText response)
           API_ERROR
           (Some (JObj {[ "status" := JNum (status response) ]}))))
  | Parsed errorData =>
      error ← get_prop errorData "error";
      msg ← get_prop errorData "message";
      details ← get_prop errorData "details";
      let message :=
        Js.or_else (Js.or_else error msg) (Some (JStr "Unknown error")) in
      let raise code details :=
        e ← CobblError_new message code details; Throw (ThrowCobbl e) in
      match status response with
      | 400 => raise INVALID_REQUEST details
      | 401 => raise UNAUTHORIZED details
      | 403 => raise FORBIDDEN details
      | 404 => raise NOT_FOUND details
      | 410 => raise ARCHIVED details
      | 429 => raise RATE_LIMIT_EXCEEDED details
      | 500 | 502 | 503 | 504 => raise SERVER_ERROR details
      | _ =>
          raise API_ERROR
            (Some (JObj (Js.own_props details
                           ∪ {[ "status" := JNum (status response) ]})))
      end
  end.



(** ** types.ts *)

(** [CobblConfig]; a field that is [None] is absent ([undefined]). *)
Module Config.
Record CobblConfig : Type := mk {
  apiKey : option string;
  baseUrl : option string
}.
End Config.
Abbreviation CobblConfig := Config.CobblConfig.

(** [CreateFeedbackRequest].  [helpful] holds whatever string the caller
    passed: the validator is what checks it against the [Helpful] literals. *)
Record CreateFeedbackRequest : Type := mkCreateFeedbackRequest {
  runId : option string;
  helpful : option string;
  userFeedback : option string
}.

(** [UpdateFeedbackRequest]. *)
Module Update.
Record UpdateFeedbackRequest : Type := mk {
  helpful : option string;
  userFeedback : option string
}.
End Update.
Abbreviation UpdateFeedbackRequest := Update.UpdateFeedbackRequest.

(** [RunPromptResponse]: the five fields as the server sent them. *)
Module Run.
Record RunPromptResponse : Type := mk {
  runId : option json;
  output : option json;
  tokenUsage : option json;
  renderedPrompt : option json;
  promptVersion : option json
}.
End Run.
Abbreviation RunPromptResponse := Run.RunPromptResponse.

(** [CreateFeedbackResponse] and [UpdateFeedbackResponse]. *)
Module FeedbackResponse.
Record t : Type := mk {
  id : option json;
  message : option json
}.
End FeedbackResponse.

(** ** validation.ts *)

Definition VALID_HELPFUL_VALUES : list string := ["helpful"; "not_helpful"].

(** [Array.prototype.includes] on strings. *)
Definition includes (l : list string) (x : string) : bool :=
  existsb (String.eqb x) l.

(** The literal ['helpful must be "helpful" or "not_helpful"'], whose
    double quotes are code unit 34. *)
Definition quoted (s : string) : string :=
  String "034"%char (s +:+ String "034"%char EmptyString).

Definition helpful_reason : string :=
  "helpful must be " +:+ quoted "helpful" +:+ " or " +:+ quoted "not_helpful".

(** [validateCreateFeedback]; [None] is [null]. *)
Definition validateCreateFeedback (feedback : CreateFeedbackRequest)
  : option string :=
  if Str.missing (runId feedback) then Some "runId is required"
  else if match helpful feedback with
          | Some h => negb (includes VALID_HELPFUL_VALUES h)
          | None => false
          end
  then Some helpful_reason
  else if match userFeedback feedback with
          | Some u => Str.blank u
          | None => false
          end
  then Some "userFeedback cannot be empty"
  else if match helpful feedback, userFeedback feedback with
          | None, None => true
          | _, _ => false
          end
  then Some "At least one of helpful or userFeedback is required"
  else None.

(** [validateUpdateFeedback]. *)
Definition validateUpdateFeedback (update : UpdateFeedbackRequest)
  : option string :=
  if match Update.helpful update with
     | Some h => negb (includes VALID_HELPFUL_VALUES h)
     | None => false
     end
  then Some helpful_reason
  else if match Update.userFeedback update with
          | Some u => Str.blank u
          | None => false
          end
  then Some "userFeedback cannot be empty"
  else if match Update.helpful update, Update.userFeedback update with
          | None, None => true
          | _, _ => false
          end
  then Some "At least one of helpful or userFeedback is required"
  else None.

(** ** Requests and the network *)

(** The [RequestInit] members the SDK sets.  [body] is the JSON document
    that [JSON.stringify] writes; [headers = None] is an init without a
    [headers] member.  The abort signal is not part of the model: a timeout
    shows as [fetch] rejecting. *)
Record RequestInit : Type := mkRequestInit {
  method : string;
  body : json;
  headers : option (gmap string string)
}.

(** The two arguments of one call of [fetch]. *)
Record FetchCall : Type := mkFetchCall {
  url : string;
  init : RequestInit
}.

(** The behaviour of [fetch]: a response, or a rejection. *)
Definition Fetch : Type := FetchCall → outcome Response.

(** A computation that may call [fetch]: from the calls issued so far to
    its outcome and the calls issued after it. *)
Definition IO (A : Type) : Type := list FetchCall → outcome A * list FetchCall.

Definition io_ret {A} (a : A) : IO A := fun log => (Return a, log).

Definition io_bind {A B} (m : IO A) (k : A → IO B) : IO B := fun log =>
  match m log with
  | (Return a, log') => k a log'
  | (Throw t, log') => (Throw t, log')
  end.

(** An effect-free step that may throw. *)
Definition io_lift {A} (o : outcome A) : IO A := fun log => (o, log).

Definition io_throw {A} (e : CobblError) : IO A :=
  io_lift (Throw (ThrowCobbl e)).

(** [try { m } catch (error) { throw h(error) }]. *)
Definition try_catch {A} (m : IO A) (h : thrown → thrown) : IO A := fun log =>
  match m log with
  | (Throw t, log') => (Throw (h t), log')
  | r => r
  end.

Declare Scope io_scope.
Delimit Scope io_scope with io.
Notation "'let!' x := m 'in' k" := (io_bind m (fun x => k))
  (at level 10, x name, m at level 100, k at level 200) : io_scope.
Notation "m ;;; k" := (io_bind m (fun _ => k))
  (at level 100, k at level 200, right associativity) : io_scope.

(** [JSON.stringify] of an object literal: a member whose value is
    [undefined] is not written. *)
Definition stringify_object (members : list (string * option json)) : json :=
  JObj (list_to_map (omap (fun '(k, v) => pair k <$> v) members)).

(** [await response.json()]. *)
Definition response_json (response : Response) : outcome json :=
  match json_result response with
  | Parsed v => Return v
  | ParseFails msg => Throw (ThrowError msg)
  end.

(** The [catch] clause of the three client methods: a [CobblError] is
    rethrown as it is, anything else becomes a [NETWORK_ERROR] whose
    message starts with [Failed to <operation>: ]. *)
Definition catch_clause (operation : string) (error : thrown) : thrown :=
  match error with
  | ThrowCobbl e => ThrowCobbl e
  | ThrowError msg =>
      ThrowCobbl
        (mkCobblError ("Failed to " +:+ operation +:+ ": " +:+ msg)
           NETWORK_ERROR None)
  | ThrowValue _ =>
      ThrowCobbl
        (mkCobblError ("Failed to " +:+ operation +:+ ": " +:+ "Unknown error")
           NETWORK_ERROR None)
  end.

(** [config.baseUrl?.trim() || 'https://api.cobbl.ai']. *)
Definition resolve_baseUrl (baseUrl : option string) : string :=
  match baseUrl with
  | Some b => if Str.truthy (Str.trim b) then Str.trim b
              else "https://api.cobbl.ai"
  | None => "https://api.cobbl.ai"
  end.

(** [{ ...extra }] for headers that may be [undefined]. *)
Definition spread_headers (extra : option (gmap string string))
  : gmap string string := default ∅ extra.

(** ** admin.ts *)

Module Admin.

(** The private state of a [CobblAdminClient]. *)
Record CobblAdminClient : Type := mkClient {
  apiKey : string;
  baseUrl : string
}.

(** The constructor. *)
Definition new (config : CobblConfig) : outcome CobblAdminClient :=
  match Config.apiKey config with
  | Some key =>
      if negb (Str.truthy key) || Str.blank key
      then Throw (ThrowCobbl
                    (mkCobblError "API key is required" INVALID_CONFIG None))
      else Return (mkClient key (resolve_baseUrl (Config.baseUrl config)))
  | None =>
      Throw (ThrowCobbl
               (mkCobblError "API key is required" INVALID_CONFIG None))
  end.

Section WithFetch.
Variable fetch : Fetch.

(** [makeRequest]: one call of [fetch]; the timer set before it and
    cleared after it does not change the outcome. *)
Definition makeRequest (this : CobblAdminClient) (path : string)
    (options : RequestInit) : IO Response := fun log =>
  let call :=
    mkFetchCall (baseUrl this +:+ path)
      (mkRequestInit (method options) (body options)
         (Some (spread_headers (headers options)
                  ∪ {[ "Content-Type" := "application/json";
                       "Authorization" := "Bearer " +:+ apiKey this ]})))
  in (fetch call, (log ++ [call])%list).

(** The [try] block of [runPrompt]. *)
Definition runPrompt_try (this : CobblAdminClient) (promptSlug : string)
    (input : json) : IO RunPromptResponse :=
  (let! response :=
     makeRequest this "/admin/v1/prompt/run"
       (mkRequestInit "POST"
          (stringify_object
             [("promptSlug", Some (JStr (Str.trim promptSlug)));
              ("input", Some input)])
          None) in
   (if negb (ok response) then io_lift (handleErrorResponse response)
    else io_ret tt) ;;;
   let! data := io_lift (response_json response) in
   let! runId := io_lift (get_prop data "runId") in
   let! output := io_lift (get_prop data "output") in
   let! tokenUsage := io_lift (get_prop data "tokenUsage") in
   let! renderedPrompt := io_lift (get_prop data "renderedPrompt") in
   let! promptVersion := io_lift (get_prop data "promptVersion") in
   io_ret (Run.mk runId output tokenUsage renderedPrompt
             promptVersion))%io.

(** [runPrompt]; [promptSlug = None] is a call without the argument. *)
Definition runPrompt (this : CobblAdminClient) (promptSlug : option string)
    (input : json) : IO RunPromptResponse :=
  match promptSlug with
  | Some slug =>
      if negb (Str.truthy slug) || Str.blank slug
      then io_throw (mkCobblError "promptSlug is required"
                       INVALID_REQUEST None)
      else try_catch (runPrompt_try this slug input)
             (catch_clause "run prompt")
  | None =>
      io_throw (mkCobblError "promptSlug is required" INVALID_REQUEST None)
  end.

End WithFetch.

End Admin.

(** ** public.ts *)

Module Public.

(** [CobblPublicConfig]. *)
Record CobblPublicConfig : Type := mkConfig {
  cfg_baseUrl : option string
}.

(** The private state of a [CobblPublicClient]. *)
Record CobblPublicClient : Type := mkClient {
  baseUrl : string
}.

(** The constructor. *)
Definition new (config : CobblPublicConfig) : CobblPublicClient :=
  mkClient (resolve_baseUrl (cfg_baseUrl config)).

Section WithFetch.
Variable fetch : Fetch.

(** [makeRequest]: as the admin client's, without [Authorization]. *)
Definition makeRequest (this : CobblPublicClient) (path : string)
    (options : RequestInit) : IO Response := fun log =>
  let call :=
    mkFetchCall (baseUrl this +:+ path)
      (mkRequestInit (method options) (body options)
         (Some (spread_headers (headers options)
                  ∪ {[ "Content-Type" := "application/json" ]})))
  in (fetch call, (log ++ [call])%list).

(** What both feedback methods do with the response. *)
Definition read_feedback_response (response : Response)
  : IO FeedbackResponse.t :=
  ((if negb (ok response) then io_lift (handleErrorResponse response)
    else io_ret tt) ;;;
   let! data := io_lift (response_json response) in
   let! id := io_lift (get_prop data "id") in
   let! message := io_lift (get_prop data "message") in
   io_ret (FeedbackResponse.mk id message))%io.

(** The [try] block of [createFeedback].  [feedback.runId.trim()] on an
    absent [runId] would be a [TypeError]; validation excludes it. *)
Definition createFeedback_try (this : CobblPublicClient)
    (feedback : CreateFeedbackRequest) : IO FeedbackResponse.t :=
  match runId feedback with
  | None =>
      io_lift
        (Throw (ThrowError
           "Cannot read properties of undefined (reading 'trim')"))
  | Some runId =>
      (let body :=
         [("runId", Some (JStr (Str.trim runId)));
          ("helpful", JStr <$> helpful feedback);
          ("userFeedback", JStr ∘ Str.trim <$> userFeedback feedback)] in
       let! response :=
         makeRequest this "/public/v1/feedback"
           (mkRequestInit "POST" (stringify_object body) None) in
       read_feedback_response response)%io
  end.

(** [createFeedback]. *)
Definition createFeedback (this : CobblPublicClient)
    (feedback : CreateFeedbackRequest) : IO FeedbackResponse.t :=
  let request :=
    try_catch (createFeedback_try this feedback)
      (catch_clause "create feedback") in
  match validateCreateFeedback feedback with
  | Some validationError =>
      if Str.truthy validationError
      then io_throw (mkCobblError validationError INVALID_REQUEST None)
      else request
  | None => request
  end.

(** The [try] block of [updateFeedback]. *)
Definition updateFeedback_try (this : CobblPublicClient) (id : string)
    (update : UpdateFeedbackRequest) : IO FeedbackResponse.t :=
  (let body :=
     [("helpful", JStr <$> Update.helpful update);
      ("userFeedback", JStr ∘ Str.trim <$> Update.userFeedback update)] in
   let! response :=
     makeRequest this ("/public/v1/feedback/" +:+ Str.trim id)
       (mkRequestInit "PATCH" (stringify_object body) None) in
   read_feedback_response response)%io.

(** [updateFeedback]; [id = None] is a call without the argument. *)
Definition updateFeedback (this : CobblPublicClient) (id : option string)
    (update : UpdateFeedbackRequest) : IO FeedbackResponse.t :=
  match id with
  | Some id' =>
      if negb (Str.truthy id') || Str.blank id'
      then io_throw (mkCobblError "id is required" INVALID_REQUEST None)
      else
        let request :=
          try_catch (updateFeedback_try this id' update)
            (catch_clause "update feedback") in
        match validateUpdateFeedback update with
        | Some validationError =>
            if Str.truthy validationError
            then io_throw (mkCobblError validationError
                             INVALID_REQUEST None)
            else request
        | None => request
        end
  | None => io_throw (mkCobblError "id is required" INVALID_REQUEST None)
  end.

End WithFetch.

End Public.

(** * Specification-side definitions *)

(** The statuses the classifier's [switch] names. *)
Definition mapped_statuses : list Z :=
  [400; 401; 403; 404; 410; 429; 500; 502; 503; 504].

(** The table of the specification, [API_ERROR] standing for "any other". *)
Definition status_table (s : Z) : CobblErrorCode :=
  if s =? 400 then INVALID_REQUEST
  else if s =? 401 then UNAUTHORIZED
  else if s =? 403 then FORBIDDEN
  else if s =? 404 then NOT_FOUND
  else if s =? 410 then ARCHIVED
  else if s =? 429 then RATE_LIMIT_EXCEEDED
  else if (s =? 500) || (s =? 502) || (s =? 503) || (s =? 504)
  then SERVER_ERROR
  else API_ERROR.

(** Member [k] of a parsed body: present only on an object that has it. *)
Definition field (v : json) (k : string) : option json :=
  match v with
  | JObj m => m !! k
  | _ => None
  end.

(** The value the classifier takes the message from: the [error] member
    when it is truthy, else the [message] member when it is truthy, else
    the literal. *)
Definition selected_message (v : json) : json :=
  match field v "error" with
  | Some e =>
      if Js.truthy e then e
      else match field v "message" with
           | Some m => if Js.truthy m then m else JStr "Unknown error"
           | None => JStr "Unknown error"
           end
  | None =>
      match field v "message" with
      | Some m => if Js.truthy m then m else JStr "Unknown error"
      | None => JStr "Unknown error"
      end
  end.

(** The details the classifier attaches: the [details] member for a status
    of the table, and for any other status the object holding [status] and,
    over it, the properties spread from the [details] member. *)
Definition attached_details (s : Z) (v : json) : option json :=
  if bool_decide (s ∈ mapped_statuses) then field v "details"
  else Some (JObj (Js.own_props (field v "details") ∪ {[ "status" := JNum s ]})).

(** The rules of [validateCreateFeedback] in the order of the
    specification, each with the reason it reports. *)
Definition create_rules : list ((CreateFeedbackRequest → bool) * string) :=
  [ (fun f => match runId f with
              | None => true
              | Some r => Str.blank r
              end,
     "runId is required");
    (fun f => match helpful f with
              | Some h => negb (String.eqb h "helpful")
                          && negb (String.eqb h "not_helpful")
              | None => false
              end,
     helpful_reason);
    (fun f => match userFeedback f with
              | Some u => Str.blank u
              | None => false
              end,
     "userFeedback cannot be empty");
    (fun f => match helpful f, userFeedback f with
              | None, None => true
              | _, _ => false
              end,
     "At least one of helpful or userFeedback is required") ].

(** The reason of the first rule of a list that a request violates. *)
Fixpoint first_violation {A} (rules : list ((A → bool) * string)) (x : A)
  : option string :=
  match rules with
  | [] => None
  | (violated, reason) :: rules' =>
      if violated x then Some reason else first_violation rules' x
  end.

(** What the specification says the [catch] clause makes of a thrown
    value. *)
Definition rethrown_or_wrapped (operation : string) (t : thrown) : thrown :=
  if isCobblError t then t
  else ThrowCobbl
         (mkCobblError
            ("Failed to " +:+ operation +:+ ": "
               +:+ match t with
                   | ThrowError msg => msg
                   | _ => "Unknown error"
                   end)
            NETWORK_ERROR None).

(** The rules of [validateUpdateFeedback], in order. *)
Definition update_rules : list ((UpdateFeedbackRequest → bool) * string) :=
  [ (fun u => match Update.helpful u with
              | Some h => negb (String.eqb h "helpful")
                          && negb (String.eqb h "not_helpful")
              | None => false
              end,
     helpful_reason);
    (fun u => match Update.userFeedback u with
              | Some t => Str.all_white t
              | None => false
              end,
     "userFeedback cannot be empty");
    (fun u => match Update.helpful u, Update.userFeedback u with
              | None, None => true
              | _, _ => false
              end,
     "At least one of helpful or userFeedback is required") ].

(** An update the validator lets through, in plain terms. *)
Definition acceptable_update (u : UpdateFeedbackRequest) : Prop :=
  (∀ h, Update.helpful u = Some h → h = "helpful" ∨ h = "not_helpful")
  ∧ (∀ t, Update.userFeedback u = Some t → Str.all_white t = false)
  ∧ (is_Some (Update.helpful u) ∨ is_Some (Update.userFeedback u)).

(** The codes that stand for an answer of the server. *)
Definition response_codes : list CobblErrorCode :=
  [INVALID_REQUEST; UNAUTHORIZED; FORBIDDEN; NOT_FOUND; ARCHIVED;
   RATE_LIMIT_EXCEEDED; SERVER_ERROR; API_ERROR].

(** The one request [runPrompt] issues for a usable slug. *)
Definition runPrompt_call (this : Admin.CobblAdminClient) (slug : string)
    (input : json) : FetchCall :=
  mkFetchCall (Admin.baseUrl this +:+ "/admin/v1/prompt/run")
    (mkRequestInit "POST"
       (JObj {[ "promptSlug" := JStr (Str.trim slug); "input" := input ]})
       (Some {[ "Content-Type" := "application/json";
                "Authorization" := "Bearer " +:+ Admin.apiKey this ]})).

(** The one request [createFeedback] issues for feedback with [runId]
    [rid]. *)
Definition createFeedback_call (this : Public.CobblPublicClient)
    (rid : string) (f : CreateFeedbackRequest) : FetchCall :=
  mkFetchCall (Public.baseUrl this +:+ "/public/v1/feedback")
    (mkRequestInit "POST"
       (stringify_object
          [("runId", Some (JStr (Str.trim rid)));
           ("helpful", JStr <$> helpful f);
           ("userFeedback", JStr ∘ Str.trim <$> userFeedback f)])
       (Some {[ "Content-Type" := "application/json" ]})).

(** The one request [updateFeedback] issues. *)
Definition updateFeedback_call (this : Public.CobblPublicClient)
    (id : string) (u : UpdateFeedbackRequest) : FetchCall :=
  mkFetchCall
    (Public.baseUrl this +:+ "/public/v1/feedback/" +:+ Str.trim id)
    (mkRequestInit "PATCH"
       (stringify_object
          [("helpful", JStr <$> Update.helpful u);
           ("userFeedback", JStr ∘ Str.trim <$> Update.userFeedback u)])
       (Some {[ "Content-Type" := "application/json" ]})).

(** The outcome of a method is a result or a [CobblError]. *)
Definition only_CobblError {A} (r : outcome A * list FetchCall) : Prop :=
  match r.1 with
  | Return _ => True
  | Throw t => isCobblError t = true
  end.

(** A measure under which the elements of an array are smaller than the
    array. *)
Fixpoint json_size (v : json) : nat :=
  match v with
  | JArr l => S (list_sum (map json_size l))
  | _ => 1
  end.

(** * Properties *)

(** ** Strings *)

Lemma trim_start_all_white s :
  Str.all_white s = true → Str.trim_start s = "".
Proof.
  induction s as [|c s IH]; simpl; [done|].
  destruct (Str.is_white_space c); simpl; [exact IH | discriminate].
Qed.

Lemma trim_start_not_all_white s :
  Str.all_white s = false → Str.all_white (Str.trim_start s) = false.
Proof.
  induction s as [|c s IH]; simpl; [done|].
  destruct (Str.is_white_space c) eqn:Hc; simpl; [exact IH|].
  by rewrite Hc.
Qed.

Lemma trim_end_empty s :
  Str.trim_end s = "" ↔ Str.all_white s = true.
Proof.
  induction s as [|c s IH]; simpl; [done|].
  destruct (Str.trim_end s) eqn:Ht.
  - destruct (Str.is_white_space c); simpl.
    + by rewrite <- IH.
    + split; discriminate.
  - split; [discriminate|].
    intros [_ Hs]%andb_prop. apply IH in Hs. discriminate.
Qed.

(** [s.trim().length === 0] holds exactly of the strings made of white
    space only. *)
Lemma blank_all_white s : Str.blank s = Str.all_white s.
Proof.
  unfold Str.blank, Str.trim.
  destruct (Str.all_white s) eqn:Hs.
  - by rewrite (trim_start_all_white _ Hs).
  - apply trim_start_not_all_white in Hs.
    destruct (Str.trim_end (Str.trim_start s)) eqn:Ht; [|done].
    apply trim_end_empty in Ht. congruence.
Qed.

Example trim_padded_slug : Str.trim "  sales_summary  " = "sales_summary".
Proof. reflexivity. Qed.

Example trim_keeps_inner_space : Str.trim " too  formal " = "too  formal".
Proof. reflexivity. Qed.

Example blank_spaces : Str.missing (Some "   ") = true.
Proof. reflexivity. Qed.

(** ** The classifier *)

Example gone_is_ARCHIVED :
  handleErrorResponse
    (mkResponse false 410 "Gone"
       (Parsed (JObj {[ "error" := JStr "Prompt archived" ]})))
  = Throw (ThrowCobbl (mkCobblError "Prompt archived" ARCHIVED None)).
Proof. reflexivity. Qed.

Example numeric_error_member_is_printed :
  handleErrorResponse
    (mkResponse false 429 "Too Many Requests"
       (Parsed (JObj {[ "error" := JNum 42 ]})))
  = Throw (ThrowCobbl (mkCobblError "42" RATE_LIMIT_EXCEEDED None)).
Proof. reflexivity. Qed.

(** An [error] member that is an object with a [toString] member of its
    own cannot be converted: the constructor of the error throws. *)
Example unprintable_error_member :
  handleErrorResponse
    (mkResponse false 400 "Bad Request"
       (Parsed (JObj {[ "error" := JObj {[ "toString" := JNum 1 ]} ]})))
  = Throw Js.not_primitive_error.
Proof. reflexivity. Qed.

Lemma get_prop_field v k : v ≠ JNull → get_prop v k = Return (field v k).
Proof. by destruct v. Qed.

Lemma or_else_selected v :
  Js.or_else (Js.or_else (field v "error") (field v "message"))
    (Some (JStr "Unknown error"))
  = Some (selected_message v).
Proof.
  unfold selected_message, Js.or_else.
  destruct (field v "error") as [e|], (field v "message") as [m|]; simpl;
    try destruct (Js.truthy e) eqn:He; simpl; rewrite ?He; simpl;
    try destruct (Js.truthy m) eqn:Hm; simpl; rewrite ?He, ?Hm; done.
Qed.

(** On a body that parses to anything but [null] the classifier converts
    the selected message to a string and throws the [CobblError] made of
    it, the table's code and the attached details. *)
Lemma handleErrorResponse_parsed o s st v :
  v ≠ JNull →
  handleErrorResponse (mkResponse o s st (Parsed v))
  = (text ← Js.to_string (selected_message v);
     Throw (ThrowCobbl
              (mkCobblError text (status_table s) (attached_details s v)))).
Proof.
  intros Hv. unfold handleErrorResponse; simpl.
  rewrite !(get_prop_field _ _ Hv); simpl.
  rewrite or_else_selected. unfold CobblError_new.
  unfold attached_details, status_table.
  destruct (Js.to_string (selected_message v)) as [text|t]; simpl.
  - destruct s as [|p|p]; try reflexivity.
    do 10 (try (destruct p as [p|p|]; try reflexivity)).
  - destruct s as [|p|p]; try reflexivity.
    do 10 (try (destruct p as [p|p|]; try reflexivity)).
Qed.

(** The classifier never returns normally. *)
Lemma handleErrorResponse_throws r : ∃ t, handleErrorResponse r = Throw t.
Proof.
  destruct r as [o s st [v|msg]]; [|eexists; reflexivity].
  destruct v; [eexists; reflexivity|..];
    (rewrite handleErrorResponse_parsed by discriminate;
     destruct (Js.to_string _); eexists; reflexivity).
Qed.

Lemma status_table_unmapped s :
  s ∉ mapped_statuses → status_table s = API_ERROR.
Proof.
  intros Hs. unfold status_table.
  repeat match goal with
  | |- context [?a =? ?b] =>
      destruct (Z.eqb_spec a b) as [->|_];
      [exfalso; apply Hs; unfold mapped_statuses; set_solver|]
  end.
  reflexivity.
Qed.

Lemma selected_message_cases v :
  (Js.truthy_opt (field v "error") = true →
   field v "error" = Some (selected_message v))
  ∧ (Js.truthy_opt (field v "error") = false →
     Js.truthy_opt (field v "message") = true →
     field v "message" = Some (selected_message v))
  ∧ (Js.truthy_opt (field v "error") = false →
     Js.truthy_opt (field v "message") = false →
     selected_message v = JStr "Unknown error").
Proof.
  unfold selected_message.
  destruct (field v "error") as [e|], (field v "message") as [m|]; simpl;
    repeat split; intros; repeat case_match; congruence.
Qed.

(** C6.  An error response whose body does not parse makes the classifier
    throw the [CobblError] with code [API_ERROR], message
    ["HTTP <status>: <statusText>"] and details [{status}], whatever the
    status: the table is not consulted, so a 500 gives [API_ERROR] (not
    [SERVER_ERROR]) with a message that starts with ["HTTP 500"]. *)
Theorem unparseable_body_is_API_ERROR :
  (∀ (o : bool) (s : Z) (st msg : string),
     handleErrorResponse (mkResponse o s st (ParseFails msg))
     = Throw (ThrowCobbl
                (mkCobblError
                   ("HTTP " +:+ Js.number_to_string s +:+ ": " +:+ st)
                   API_ERROR
                   (Some (JObj {[ "status" := JNum s ]})))))
  ∧ (∀ (o : bool) (st msg : string),
       handleErrorResponse (mkResponse o 500 st (ParseFails msg))
       = Throw (ThrowCobbl
                  (mkCobblError ("HTTP 500: " +:+ st) API_ERROR
                     (Some (JObj {[ "status" := JNum 500 ]}))))
       ∧ status_table 500 = SERVER_ERROR).
Proof.
  split; [reflexivity|]. intros o st msg. split; reflexivity.
Qed.

(** C1 (the code departs from it).  A 500 response whose body is the JSON
    text [null] parses, and the classifier then throws the [TypeError] of
    reading [null.error]: a value that is not a [CobblError], where the
    table gives [SERVER_ERROR]. *)
Theorem null_body_escapes_classifier :
  let response :=
    mkResponse false 500 "Internal Server Error" (Parsed JNull) in
  handleErrorResponse response
  = Throw (ThrowError "Cannot read properties of null (reading 'error')")
  ∧ (∀ e, handleErrorResponse response ≠ Throw (ThrowCobbl e))
  ∧ status_table (status response) = SERVER_ERROR.
Proof.
  simpl. split; [reflexivity|]. split; [|reflexivity].
  intros e. unfold handleErrorResponse; simpl. discriminate.
Qed.

(** C2, as the code has it.  For a status outside the table and a body
    that parses to a value other than [null] (its message converting to a
    string), the classifier throws an [API_ERROR] whose details is
    [{status}] overlaid with the properties of the server's details: a
    [status] property is always there, and it is the HTTP status unless the
    server's details has a [status] of its own. *)
Theorem unmapped_status_details (r : Response) (v : json) (text : string) :
  json_result r = Parsed v →
  v ≠ JNull →
  Js.to_string (selected_message v) = Return text →
  status r ∉ mapped_statuses →
  ∃ m : gmap string json,
    handleErrorResponse r
    = Throw (ThrowCobbl (mkCobblError text API_ERROR (Some (JObj m))))
    ∧ (∀ k, m !! k
            = match Js.own_props (field v "details") !! k with
              | Some x => Some x
              | None => if decide (k = "status") then Some (JNum (status r))
                        else None
              end)
    ∧ is_Some (m !! "status")
    ∧ (Js.own_props (field v "details") !! "status" = None →
       m !! "status" = Some (JNum (status r))).
Proof.
  intros Hb Hv Ht Hs. destruct r as [o s st b]; simpl in *; subst b.
  exists (Js.own_props (field v "details") ∪ {[ "status" := JNum s ]}).
  assert (Hk : ∀ k,
    (Js.own_props (field v "details") ∪ {[ "status" := JNum s ]}) !! k
    = match Js.own_props (field v "details") !! k with
      | Some x => Some x
      | None => if decide (k = "status") then Some (JNum s) else None
      end).
  { intros k. rewrite lookup_union.
    destruct (Js.own_props (field v "details") !! k) as [x|] eqn:Hx.
    - by rewrite union_Some_l.
    - rewrite (left_id None _). case_decide as Hd.
      + subst k. apply lookup_singleton_eq.
      + by apply lookup_singleton_ne. }
  split; [|split; [exact Hk|split]].
  - rewrite (handleErrorResponse_parsed _ _ _ _ Hv), Ht; simpl.
    rewrite (status_table_unmapped _ Hs). unfold attached_details.
    by rewrite bool_decide_eq_false_2.
  - rewrite Hk. destruct (_ !! "status"); [eauto|].
    rewrite decide_True by done. eauto.
  - intros Hnone. rewrite Hk, Hnone. by rewrite decide_True.
Qed.

(** C3, as the code has it.  For a body that parses to a value other than
    [null], the thrown error's message is the string form of the [error]
    member when that is truthy, else of the [message] member when that is
    truthy, else ["Unknown error"]; its details is the [details] member, or
    absent, for a status of the table, and the merge with [{status}]
    otherwise. *)
Theorem classifier_message_and_details (r : Response) (v : json)
    (text : string) :
  json_result r = Parsed v →
  v ≠ JNull →
  Js.to_string (selected_message v) = Return text →
  ∃ e : CobblError,
    handleErrorResponse r = Throw (ThrowCobbl e)
    ∧ message e = text
    ∧ (Js.truthy_opt (field v "error") = true →
       field v "error" = Some (selected_message v))
    ∧ (Js.truthy_opt (field v "error") = false →
       Js.truthy_opt (field v "message") = true →
       field v "message" = Some (selected_message v))
    ∧ (Js.truthy_opt (field v "error") = false →
       Js.truthy_opt (field v "message") = false →
       text = "Unknown error")
    ∧ (status r ∈ mapped_statuses → details e = field v "details")
    ∧ (status r ∉ mapped_statuses →
       details e
       = Some (JObj (Js.own_props (field v "details")
                       ∪ {[ "status" := JNum (status r) ]}))).
Proof.
  intros Hb Hv Ht. destruct r as [o s st b]; simpl in *; subst b.
  eexists. split.
  { rewrite (handleErrorResponse_parsed _ _ _ _ Hv), Ht. reflexivity. }
  simpl. destruct (selected_message_cases v) as (H1 & H2 & H3).
  split; [reflexivity|]. split; [exact H1|]. split; [exact H2|].
  split; [|split].
  - intros He Hm. rewrite (H3 He Hm) in Ht. simpl in Ht. congruence.
  - intros Hs. unfold attached_details. by rewrite bool_decide_eq_true_2.
  - intros Hs. unfold attached_details. by rewrite bool_decide_eq_false_2.
Qed.

(** C2, refuted as stated: on a 418 whose details carries a [status] of its
    own, the details of the thrown error holds the server's [status], and
    the HTTP status is nowhere in it. *)
Lemma server_status_overrides :
  let v := JObj {[ "error" := JStr "teapot";
                   "details" := JObj {[ "status" := JStr "brewing" ]} ]} in
  let r := mkResponse false 418 "I'm a teapot" (Parsed v) in
  (status r ∉ mapped_statuses)
  ∧ ∃ (e : CobblError) (m : gmap string json),
      handleErrorResponse r = Throw (ThrowCobbl e)
      ∧ code e = API_ERROR
      ∧ details e = Some (JObj m)
      ∧ m = {[ "status" := JStr "brewing" ]}
      ∧ m !! "status" ≠ Some (JNum (status r)).
Proof.
  intros v r. split.
  - assert (H : bool_decide (status r ∈ mapped_statuses) = false)
      by reflexivity.
    by apply bool_decide_eq_false_1 in H.
  - eexists _, _. split; [reflexivity|]. simpl.
    split; [reflexivity|]. split; [reflexivity|]. split; [reflexivity|].
    discriminate.
Qed.

Lemma unmapped_status_details_witness :
  let v := JObj {[ "error" := JStr "teapot";
                   "details" := JObj {[ "reason" := JStr "short" ]} ]} in
  let r := mkResponse false 418 "I'm a teapot" (Parsed v) in
  json_result r = Parsed v
  ∧ v ≠ JNull
  ∧ Js.to_string (selected_message v) = Return "teapot"
  ∧ (status r ∉ mapped_statuses)
  ∧ ∃ m : gmap string json,
      handleErrorResponse r
      = Throw (ThrowCobbl (mkCobblError "teapot" API_ERROR (Some (JObj m))))
      ∧ (∀ k, m !! k
              = match Js.own_props (field v "details") !! k with
                | Some x => Some x
                | None => if decide (k = "status")
                          then Some (JNum (status r)) else None
                end)
      ∧ is_Some (m !! "status")
      ∧ (Js.own_props (field v "details") !! "status" = None →
         m !! "status" = Some (JNum (status r))).
Proof.
  intros v r.
  assert (H1 : json_result r = Parsed v) by reflexivity.
  assert (H2 : v ≠ JNull) by discriminate.
  assert (H3 : Js.to_string (selected_message v) = Return "teapot")
    by reflexivity.
  assert (H4 : status r ∉ mapped_statuses).
  { assert (H : bool_decide (status r ∈ mapped_statuses) = false)
      by reflexivity.
    by apply bool_decide_eq_false_1 in H. }
  split; [exact H1|]. split; [exact H2|]. split; [exact H3|].
  split; [exact H4|].
  exact (unmapped_status_details r v "teapot" H1 H2 H3 H4).
Defined.

(** C3, refuted as stated.  On a 400 the [error] member is present and
    holds the empty string, yet the message is taken from the [message]
    member; and on a 418 the details of the thrown error is not the
    [details] member but its merge with the status. *)
Lemma empty_error_member_is_skipped :
  (let v := JObj {[ "error" := JStr ""; "message" := JStr "boom" ]} in
   let r := mkResponse false 400 "Bad Request" (Parsed v) in
   field v "error" = Some (JStr "")
   ∧ ∃ e : CobblError,
       handleErrorResponse r = Throw (ThrowCobbl e)
       ∧ message e = "boom"
       ∧ message e ≠ "")
  ∧ (let v := JObj {[ "error" := JStr "teapot";
                      "details" := JObj {[ "reason" := JStr "short" ]} ]} in
     let r := mkResponse false 418 "I'm a teapot" (Parsed v) in
     field v "details" = Some (JObj {[ "reason" := JStr "short" ]})
     ∧ ∃ e : CobblError,
         handleErrorResponse r = Throw (ThrowCobbl e)
         ∧ details e
           = Some (JObj {[ "reason" := JStr "short"; "status" := JNum 418 ]})
         ∧ details e ≠ field v "details").
Proof.
  split.
  - intros v r. split; [reflexivity|].
    eexists. split; [reflexivity|]. simpl. split; [reflexivity|discriminate].
  - intros v r. split; [reflexivity|].
    eexists. split; [reflexivity|]. simpl. split; [reflexivity|].
    vm_compute. discriminate.
Qed.

Lemma classifier_message_and_details_witness :
  let v := JObj {[ "message" := JStr "Prompt not found";
                   "details" := JObj {[ "slug" := JStr "x" ]} ]} in
  let r := mkResponse false 404 "Not Found" (Parsed v) in
  json_result r = Parsed v
  ∧ v ≠ JNull
  ∧ Js.to_string (selected_message v) = Return "Prompt not found"
  ∧ ∃ e : CobblError,
      handleErrorResponse r = Throw (ThrowCobbl e)
      ∧ message e = "Prompt not found"
      ∧ (Js.truthy_opt (field v "error") = true →
         field v "error" = Some (selected_message v))
      ∧ (Js.truthy_opt (field v "error") = false →
         Js.truthy_opt (field v "message") = true →
         field v "message" = Some (selected_message v))
      ∧ (Js.truthy_opt (field v "error") = false →
         Js.truthy_opt (field v "message") = false →
         "Prompt not found" = "Unknown error")
      ∧ (status r ∈ mapped_statuses → details e = field v "details")
      ∧ (status r ∉ mapped_statuses →
         details e
         = Some (JObj (Js.own_props (field v "details")
                         ∪ {[ "status" := JNum (status r) ]}))).
Proof.
  intros v r.
  assert (H1 : json_result r = Parsed v) by reflexivity.
  assert (H2 : v ≠ JNull) by discriminate.
  assert (H3 : Js.to_string (selected_message v) = Return "Prompt not found")
    by reflexivity.
  split; [exact H1|]. split; [exact H2|]. split; [exact H3|].
  exact (classifier_message_and_details r v "Prompt not found" H1 H2 H3).
Defined.

(** ** The validators *)

Lemma missing_blank (s : option string) :
  Str.missing s = match s with None => true | Some r => Str.blank r end.
Proof. destruct s as [[|c r]|]; reflexivity. Qed.

Lemma first_violation_None {A} (rules : list ((A → bool) * string)) x :
  first_violation rules x = None ↔ Forall (fun rule => rule.1 x = false) rules.
Proof.
  induction rules as [|[violated reason] rules IH]; simpl.
  - split; [constructor|done].
  - destruct (violated x) eqn:Hv.
    + split; [discriminate|]. intros H. inversion H; simpl in *. congruence.
    + rewrite IH. split; [by constructor|]. by inversion 1.
Qed.

(** C7.  [validateCreateFeedback] returns the reason of the first rule
    violated, in the order runId, helpful, userFeedback, "at least one",
    and [null] exactly when no rule is violated. *)
Theorem validateCreateFeedback_first_violation (f : CreateFeedbackRequest) :
  validateCreateFeedback f = first_violation create_rules f
  ∧ (validateCreateFeedback f = None
     ↔ Forall (fun rule => rule.1 f = false) create_rules).
Proof.
  assert (H : validateCreateFeedback f = first_violation create_rules f).
  { unfold validateCreateFeedback, create_rules, first_violation.
    rewrite missing_blank. unfold includes, VALID_HELPFUL_VALUES; simpl.
    destruct (runId f) as [r|]; [destruct (Str.blank r)|]; try reflexivity.
    destruct (helpful f) as [h|]; [|reflexivity].
    rewrite orb_false_r, negb_orb. reflexivity. }
  split; [exact H|]. rewrite H. apply first_violation_None.
Qed.

Lemma validateCreateFeedback_truthy f reason :
  validateCreateFeedback f = Some reason → Str.truthy reason = true.
Proof.
  unfold validateCreateFeedback. intros H.
  repeat case_match; simplify_eq; reflexivity.
Qed.

Lemma validateUpdateFeedback_truthy u reason :
  validateUpdateFeedback u = Some reason → Str.truthy reason = true.
Proof.
  unfold validateUpdateFeedback. intros H.
  repeat case_match; simplify_eq; reflexivity.
Qed.

Lemma validateCreateFeedback_runId f :
  validateCreateFeedback f = None →
  ∃ rid, runId f = Some rid ∧ Str.blank rid = false.
Proof.
  unfold validateCreateFeedback. rewrite missing_blank.
  destruct (runId f) as [rid|]; [|discriminate].
  destruct (Str.blank rid) eqn:Hb; [discriminate|]. intros _. eauto.
Qed.

(** ** The clients *)

Lemma missing_Some_false (s : string) :
  Str.missing (Some s) = false →
  negb (Str.truthy s) || Str.blank s = false.
Proof. done. Qed.

Lemma runPrompt_valid fetch this slug input :
  Str.missing (Some slug) = false →
  Admin.runPrompt fetch this (Some slug) input
  = try_catch (Admin.runPrompt_try fetch this slug input)
      (catch_clause "run prompt").
Proof.
  intros H%missing_Some_false. unfold Admin.runPrompt. by rewrite H.
Qed.

Lemma createFeedback_valid fetch this f :
  validateCreateFeedback f = None →
  Public.createFeedback fetch this f
  = try_catch (Public.createFeedback_try fetch this f)
      (catch_clause "create feedback").
Proof. intros H. unfold Public.createFeedback. by rewrite H. Qed.

Lemma updateFeedback_valid fetch this id u :
  Str.missing (Some id) = false →
  validateUpdateFeedback u = None →
  Public.updateFeedback fetch this (Some id) u
  = try_catch (Public.updateFeedback_try fetch this id u)
      (catch_clause "update feedback").
Proof.
  intros H%missing_Some_false Hu. unfold Public.updateFeedback.
  by rewrite H, Hu.
Qed.

(** C8.  A call whose input fails validation throws [INVALID_REQUEST] with
    the validator's reason and leaves the list of issued requests as it
    was: [fetch] is not called. *)
Theorem invalid_input_issues_no_request (fetch : Fetch)
    (log : list FetchCall) :
  (∀ this promptSlug input,
     Str.missing promptSlug = true →
     Admin.runPrompt fetch this promptSlug input log
     = (Throw (ThrowCobbl
                 (mkCobblError "promptSlug is required" INVALID_REQUEST None)),
        log))
  ∧ (∀ this f reason,
       validateCreateFeedback f = Some reason →
       Public.createFeedback fetch this f log
       = (Throw (ThrowCobbl (mkCobblError reason INVALID_REQUEST None)), log))
  ∧ (∀ this id u,
       Str.missing id = true →
       Public.updateFeedback fetch this id u log
       = (Throw (ThrowCobbl
                   (mkCobblError "id is required" INVALID_REQUEST None)),
          log))
  ∧ (∀ this id u reason,
       Str.missing id = false →
       validateUpdateFeedback u = Some reason →
       Public.updateFeedback fetch this id u log
       = (Throw (ThrowCobbl (mkCobblError reason INVALID_REQUEST None)), log)).
Proof.
  repeat split.
  - intros this [slug|] input H; [|reflexivity].
    unfold Admin.runPrompt. simpl in H. by rewrite H.
  - intros this f reason H. unfold Public.createFeedback.
    by rewrite H, (validateCreateFeedback_truthy _ _ H).
  - intros this [id|] u H; [|reflexivity].
    unfold Public.updateFeedback. simpl in H. by rewrite H.
  - intros this [id|] u reason H Hu; [|discriminate].
    unfold Public.updateFeedback. simpl in H.
    by rewrite H, Hu, (validateUpdateFeedback_truthy _ _ Hu).
Qed.

Lemma invalid_input_issues_no_request_witness :
  let fetch : Fetch := fun _ => Throw (ThrowError "unreachable") in
  let this := Public.new (Public.mkConfig None) in
  Str.missing (Some "") = true
  ∧ Public.updateFeedback fetch this (Some "")
      (Update.mk (Some "helpful") None) []
    = (Throw (ThrowCobbl (mkCobblError "id is required" INVALID_REQUEST None)),
       []).
Proof.
  intros fetch this. split; [reflexivity|].
  exact (proj1 (proj2 (proj2 (invalid_input_issues_no_request fetch [])))
           this (Some "") (Update.mk (Some "helpful") None) eq_refl).
Defined.

Lemma catch_clause_spec operation t :
  catch_clause operation t = rethrown_or_wrapped operation t.
Proof. by destruct t. Qed.

Lemma try_catch_throw {A} (m : IO A) h log t log' :
  m log = (Throw t, log') → try_catch m h log = (Throw (h t), log').
Proof. intros H. unfold try_catch. by rewrite H. Qed.

(** A rejection of [fetch] is what the [try] block throws. *)
Lemma runPrompt_try_fetch_rejects fetch this slug input log t :
  (∀ call, fetch call = Throw t) →
  ∃ call,
    Admin.runPrompt_try fetch this slug input log
    = (Throw t, (log ++ [call])%list).
Proof.
  intros Hf. eexists.
  unfold Admin.runPrompt_try, io_bind, Admin.makeRequest.
  by rewrite Hf.
Qed.

(** C5.  Whatever the request phase of a client method throws, the method
    throws it unchanged when it is a [CobblError], and otherwise throws one
    [NETWORK_ERROR] whose message is ["Failed to <operation>: "] followed by
    the error's message, or by ["Unknown error"] for a value that is not an
    [Error]; the operation is ["run prompt"], ["create feedback"] or
    ["update feedback"].  What it throws is not wrapped a second time. *)
Theorem request_phase_errors (fetch : Fetch) (log : list FetchCall) :
  (∀ this slug input t log',
     Str.missing (Some slug) = false →
     Admin.runPrompt_try fetch this slug input log = (Throw t, log') →
     Admin.runPrompt fetch this (Some slug) input log
     = (Throw (rethrown_or_wrapped "run prompt" t), log'))
  ∧ (∀ this f t log',
       validateCreateFeedback f = None →
       Public.createFeedback_try fetch this f log = (Throw t, log') →
       Public.createFeedback fetch this f log
       = (Throw (rethrown_or_wrapped "create feedback" t), log'))
  ∧ (∀ this id u t log',
       Str.missing (Some id) = false →
       validateUpdateFeedback u = None →
       Public.updateFeedback_try fetch this id u log = (Throw t, log') →
       Public.updateFeedback fetch this (Some id) u log
       = (Throw (rethrown_or_wrapped "update feedback" t), log'))
  ∧ (∀ operation t,
       rethrown_or_wrapped operation (rethrown_or_wrapped operation t)
       = rethrown_or_wrapped operation t).
Proof.
  repeat split.
  - intros this slug input t log' Hs Ht.
    rewrite (runPrompt_valid _ _ _ _ Hs), <- catch_clause_spec.
    by apply try_catch_throw.
  - intros this f t log' Hf Ht.
    rewrite (createFeedback_valid _ _ _ Hf), <- catch_clause_spec.
    by apply try_catch_throw.
  - intros this id u t log' Hi Hu Ht.
    rewrite (updateFeedback_valid _ _ _ _ Hi Hu), <- catch_clause_spec.
    by apply try_catch_throw.
  - intros operation [e|msg|v]; reflexivity.
Qed.

Lemma request_phase_errors_witness :
  let fetch : Fetch := fun _ => Throw (ThrowError "Network failure") in
  let this := Admin.mkClient "test-api-key" "https://api.cobbl.ai" in
  let call :=
    mkFetchCall "https://api.cobbl.ai/admin/v1/prompt/run"
      (mkRequestInit "POST"
         (JObj {[ "promptSlug" := JStr "test"; "input" := JObj ∅ ]})
         (Some {[ "Content-Type" := "application/json";
                  "Authorization" := "Bearer test-api-key" ]})) in
  Str.missing (Some "test") = false
  ∧ Admin.runPrompt_try fetch this "test" (JObj ∅) []
    = (Throw (ThrowError "Network failure"), [call])
  ∧ Admin.runPrompt fetch this (Some "test") (JObj ∅) []
    = (Throw (ThrowCobbl
                (mkCobblError "Failed to run prompt: Network failure"
                   NETWORK_ERROR None)),
       [call]).
Proof.
  intros fetch this call.
  assert (H1 : Str.missing (Some "test") = false) by reflexivity.
  assert (H2 : Admin.runPrompt_try fetch this "test" (JObj ∅) []
               = (Throw (ThrowError "Network failure"), [call]))
    by reflexivity.
  split; [exact H1|]. split; [exact H2|].
  exact (proj1 (request_phase_errors fetch []) this "test" (JObj ∅)
           (ThrowError "Network failure") [call] H1 H2).
Defined.

(** Only [makeRequest] adds to the list of issued requests. *)
Lemma read_feedback_response_log response log :
  (Public.read_feedback_response response log).2 = log.
Proof.
  unfold Public.read_feedback_response, io_bind, io_lift, io_ret.
  repeat case_match; simplify_eq; reflexivity.
Qed.

Lemma try_catch_log {A} (m : IO A) h log : (try_catch m h log).2 = (m log).2.
Proof. unfold try_catch. by repeat case_match. Qed.

Lemma runPrompt_try_log fetch this slug input log :
  ∃ call,
    (Admin.runPrompt_try fetch this slug input log).2 = (log ++ [call])%list
    ∧ url call = Admin.baseUrl this +:+ "/admin/v1/prompt/run"
    ∧ headers (init call)
      = Some {[ "Content-Type" := "application/json";
                "Authorization" := "Bearer " +:+ Admin.apiKey this ]}.
Proof.
  eexists. split; [|split].
  - unfold Admin.runPrompt_try, Admin.makeRequest, io_bind, io_lift, io_ret.
    repeat case_match; simplify_eq; reflexivity.
  - reflexivity.
  - simpl. unfold spread_headers; simpl. by rewrite (left_id ∅ _).
Qed.

(** The members [JSON.stringify] writes for the body of [createFeedback]. *)
Lemma create_body_lookup rid (h u : option string) :
  ∃ m, stringify_object
         [("runId", Some (JStr (Str.trim rid)));
          ("helpful", JStr <$> h);
          ("userFeedback", JStr ∘ Str.trim <$> u)] = JObj m
       ∧ ∀ k, m !! k
              = if decide (k = "runId") then Some (JStr (Str.trim rid))
                else if decide (k = "helpful") then JStr <$> h
                else if decide (k = "userFeedback")
                     then JStr ∘ Str.trim <$> u
                else None.
Proof.
  eexists. split; [reflexivity|]. intros k'.
  destruct h as [h|], u as [u|]; simpl;
    repeat (rewrite lookup_insert; case_decide; simplify_eq; simpl);
    rewrite ?lookup_empty; repeat case_decide; simplify_eq; done.
Qed.

Lemma update_body_lookup (h u : option string) :
  ∃ m, stringify_object
         [("helpful", JStr <$> h);
          ("userFeedback", JStr ∘ Str.trim <$> u)] = JObj m
       ∧ ∀ k, m !! k
              = if decide (k = "helpful") then JStr <$> h
                else if decide (k = "userFeedback")
                     then JStr ∘ Str.trim <$> u
                else None.
Proof.
  eexists. split; [reflexivity|]. intros k'.
  destruct h as [h|], u as [u|]; simpl;
    repeat (rewrite lookup_insert; case_decide; simplify_eq; simpl);
    rewrite ?lookup_empty; repeat case_decide; simplify_eq; done.
Qed.

(** C9.  For a request that passes validation, [createFeedback] issues one
    request whose body has [runId] (trimmed), [helpful] when the caller
    gave it (unchanged) and [userFeedback] when the caller gave it
    (trimmed), and no other member; [updateFeedback] does the same without
    [runId].  A field the caller left out is not a member of the body. *)
Theorem feedback_body_has_given_fields (fetch : Fetch)
    (log : list FetchCall) :
  (∀ this f,
     validateCreateFeedback f = None →
     ∃ rid call m,
       runId f = Some rid
       ∧ (Public.createFeedback fetch this f log).2 = (log ++ [call])%list
       ∧ body (init call) = JObj m
       ∧ ∀ k, m !! k
              = if decide (k = "runId") then Some (JStr (Str.trim rid))
                else if decide (k = "helpful") then JStr <$> helpful f
                else if decide (k = "userFeedback")
                     then JStr ∘ Str.trim <$> userFeedback f
                else None)
  ∧ (∀ this id u,
       Str.missing (Some id) = false →
       validateUpdateFeedback u = None →
       ∃ call m,
         (Public.updateFeedback fetch this (Some id) u log).2
         = (log ++ [call])%list
         ∧ body (init call) = JObj m
         ∧ ∀ k, m !! k
                = if decide (k = "helpful") then JStr <$> Update.helpful u
                  else if decide (k = "userFeedback")
                       then JStr ∘ Str.trim <$> Update.userFeedback u
                  else None).
Proof.
  split.
  - intros this f Hf.
    destruct (validateCreateFeedback_runId _ Hf) as (rid & Hrid & _).
    destruct (create_body_lookup rid (helpful f) (userFeedback f))
      as (m & Hm & Hk).
    exists rid. eexists. exists m. split; [exact Hrid|].
    rewrite (createFeedback_valid _ _ _ Hf), try_catch_log.
    unfold Public.createFeedback_try. rewrite Hrid.
    unfold io_bind, Public.makeRequest at 1. cbv zeta.
    split; [|split; [|exact Hk]].
    + destruct (fetch _); [apply read_feedback_response_log|reflexivity].
    + exact Hm.
  - intros this id u Hi Hu.
    destruct (update_body_lookup (Update.helpful u) (Update.userFeedback u))
      as (m & Hm & Hk).
    eexists. exists m.
    rewrite (updateFeedback_valid _ _ _ _ Hi Hu), try_catch_log.
    unfold Public.updateFeedback_try.
    unfold io_bind, Public.makeRequest at 1. cbv zeta.
    split; [|split; [|exact Hk]].
    + destruct (fetch _); [apply read_feedback_response_log|reflexivity].
    + exact Hm.
Qed.

Lemma feedback_body_has_given_fields_witness :
  let fetch : Fetch := fun _ =>
    Return (mkResponse true 201 "Created"
              (Parsed (JObj {[ "id" := JStr "fb-1";
                               "message" := JStr "Feedback created" ]}))) in
  let this := Public.new (Public.mkConfig None) in
  let f := mkCreateFeedbackRequest (Some "run-123") (Some "not_helpful") None in
  validateCreateFeedback f = None
  ∧ ∃ rid call m,
      runId f = Some rid
      ∧ (Public.createFeedback fetch this f []).2 = ([] ++ [call])%list
      ∧ body (init call) = JObj m
      ∧ ∀ k, m !! k
             = if decide (k = "runId") then Some (JStr (Str.trim rid))
               else if decide (k = "helpful") then JStr <$> helpful f
               else if decide (k = "userFeedback")
                    then JStr ∘ Str.trim <$> userFeedback f
               else None.
Proof.
  intros fetch this f.
  assert (H : validateCreateFeedback f = None) by reflexivity.
  split; [exact H|].
  exact (proj1 (feedback_body_has_given_fields fetch []) this f H).
Defined.

(** The example of the specification: no [userFeedback] member, not even
    one that holds [null]. *)
Example createFeedback_run_123 :
  let fetch : Fetch := fun _ =>
    Return (mkResponse true 201 "Created"
              (Parsed (JObj {[ "id" := JStr "fb-1";
                               "message" := JStr "Feedback created" ]}))) in
  Public.createFeedback fetch (Public.new (Public.mkConfig None))
    (mkCreateFeedbackRequest (Some "run-123") (Some "not_helpful") None) []
  = (Return (FeedbackResponse.mk (Some (JStr "fb-1"))
               (Some (JStr "Feedback created"))),
     [mkFetchCall "https://api.cobbl.ai/public/v1/feedback"
        (mkRequestInit "POST"
           (JObj {[ "runId" := JStr "run-123";
                    "helpful" := JStr "not_helpful" ]})
           (Some {[ "Content-Type" := "application/json" ]}))]).
Proof. reflexivity. Qed.

(** C10.  When the configured [apiKey] is not blank, construction succeeds
    and keeps the key as given; a [runPrompt] call with a usable slug then
    issues one request, whose [Authorization] header is ["Bearer "]
    followed by that key, white space included, and a call with a missing
    slug issues none. *)
Theorem authorization_header_is_untrimmed_key (config : CobblConfig)
    (key : string) :
  Config.apiKey config = Some key →
  Str.missing (Some key) = false →
  ∃ this,
    Admin.new config = Return this
    ∧ Admin.apiKey this = key
    ∧ ∀ (fetch : Fetch) promptSlug input log,
        (Str.missing promptSlug = true →
         (Admin.runPrompt fetch this promptSlug input log).2 = log)
        ∧ (Str.missing promptSlug = false →
           ∃ call hs,
             (Admin.runPrompt fetch this promptSlug input log).2
             = (log ++ [call])%list
             ∧ headers (init call) = Some hs
             ∧ hs !! "Authorization" = Some ("Bearer " +:+ key)).
Proof.
  intros Hkey Hk%missing_Some_false.
  exists (Admin.mkClient key (resolve_baseUrl (Config.baseUrl config))).
  split; [unfold Admin.new; by rewrite Hkey, Hk|]. split; [reflexivity|].
  intros fetch promptSlug input log. split.
  - intros Hs. unfold Admin.runPrompt.
    destruct promptSlug as [slug|]; [|reflexivity].
    simpl in Hs. by rewrite Hs.
  - intros Hs. destruct promptSlug as [slug|]; [|discriminate].
    rewrite (runPrompt_valid _ _ _ _ Hs), try_catch_log.
    destruct (runPrompt_try_log fetch
                (Admin.mkClient key (resolve_baseUrl (Config.baseUrl config)))
                slug input log) as (call & Hlog & _ & Hh).
    exists call. eexists. split; [exact Hlog|]. split; [exact Hh|].
    reflexivity.
Qed.

Lemma authorization_header_is_untrimmed_key_witness :
  let key := "  sk-live-123 " in
  let config := Config.mk (Some key) None in
  Config.apiKey config = Some key
  ∧ Str.missing (Some key) = false
  ∧ ∃ this,
      Admin.new config = Return this
      ∧ Admin.apiKey this = key
      ∧ ∀ (fetch : Fetch) promptSlug input log,
          (Str.missing promptSlug = true →
           (Admin.runPrompt fetch this promptSlug input log).2 = log)
          ∧ (Str.missing promptSlug = false →
             ∃ call hs,
               (Admin.runPrompt fetch this promptSlug input log).2
               = (log ++ [call])%list
               ∧ headers (init call) = Some hs
               ∧ hs !! "Authorization" = Some ("Bearer " +:+ key)).
Proof.
  intros key config.
  assert (H1 : Config.apiKey config = Some key) by reflexivity.
  assert (H2 : Str.missing (Some key) = false) by reflexivity.
  split; [exact H1|]. split; [exact H2|].
  exact (authorization_header_is_untrimmed_key config key H1 H2).
Defined.

(** The header as sent for a key with surrounding white space. *)
Example runPrompt_padded_key :
  let fetch : Fetch := fun _ => Throw (ThrowError "Network failure") in
  ∃ this,
    Admin.new (Config.mk (Some "  sk-live-123 ") None) = Return this
    ∧ (Admin.runPrompt fetch this (Some "  sales_summary  ") (JObj ∅) []).2
      = [mkFetchCall "https://api.cobbl.ai/admin/v1/prompt/run"
           (mkRequestInit "POST"
              (JObj {[ "promptSlug" := JStr "sales_summary";
                       "input" := JObj ∅ ]})
              (Some {[ "Content-Type" := "application/json";
                       "Authorization" := "Bearer   sk-live-123 " ]}))].
Proof. eexists. split; reflexivity. Qed.

(** C4 (the code departs from it).  The server answers 200 with a body
    that is not JSON: [response.json()] rejects inside the [try] block and
    each method reports [NETWORK_ERROR], although a response was received;
    the classifier's own guard turns the same failure on an error response
    into [API_ERROR]. *)
Theorem unparseable_success_body_is_NETWORK_ERROR :
  let response :=
    mkResponse true 200 "OK" (ParseFails "Unexpected token '<'") in
  let fetch : Fetch := fun _ => Return response in
  let admin := Admin.mkClient "test-api-key" "https://api.cobbl.ai" in
  let public := Public.mkClient "https://api.cobbl.ai" in
  (∃ call,
     Admin.runPrompt fetch admin (Some "test") (JObj ∅) []
     = (Throw (ThrowCobbl
                 (mkCobblError "Failed to run prompt: Unexpected token '<'"
                    NETWORK_ERROR None)),
        [call])
     ∧ fetch call = Return response)
  ∧ (∃ call,
       Public.createFeedback fetch public
         (mkCreateFeedbackRequest (Some "run-123") (Some "helpful") None) []
       = (Throw (ThrowCobbl
                   (mkCobblError
                      "Failed to create feedback: Unexpected token '<'"
                      NETWORK_ERROR None)),
          [call])
       ∧ fetch call = Return response)
  ∧ (∃ call,
       Public.updateFeedback fetch public (Some "fb-1")
         (Update.mk (Some "helpful") None) []
       = (Throw (ThrowCobbl
                   (mkCobblError
                      "Failed to update feedback: Unexpected token '<'"
                      NETWORK_ERROR None)),
          [call])
       ∧ fetch call = Return response).
Proof.
  intros response fetch admin public.
  repeat split; eexists; (split; [vm_compute; reflexivity|reflexivity]).
Qed.

(** * Further properties of the code *)

(** ** Trimming *)

Lemma trim_start_head s :
  match Str.trim_start s with
  | EmptyString => True
  | String c _ => Str.is_white_space c = false
  end.
Proof.
  induction s as [|c s IH]; simpl; [done|].
  destruct (Str.is_white_space c) eqn:Hc; [exact IH | exact Hc].
Qed.

Lemma trim_end_head c s :
  Str.is_white_space c = false → ∃ t, Str.trim_end (String c s) = String c t.
Proof.
  intros Hc. simpl. destruct (Str.trim_end s); rewrite ?Hc; eauto.
Qed.

Lemma trim_end_idem s : Str.trim_end (Str.trim_end s) = Str.trim_end s.
Proof.
  induction s as [|c s IH]; simpl; [done|].
  destruct (Str.trim_end s) as [|d t] eqn:Ht.
  - destruct (Str.is_white_space c) eqn:Hc; simpl; [done|]. by rewrite Hc.
  - change (Str.trim_end (String c (String d t)))
      with (match Str.trim_end (String d t) with
            | EmptyString => if Str.is_white_space c then EmptyString
                             else String c EmptyString
            | t' => String c t'
            end).
    by rewrite IH.
Qed.

(** Trimming twice is trimming once. *)
Lemma trim_idem s : Str.trim (Str.trim s) = Str.trim s.
Proof.
  unfold Str.trim at 2 3. pose proof (trim_start_head s) as Hh.
  destruct (Str.trim_start s) as [|c s'] eqn:Hs; [reflexivity|].
  destruct (trim_end_head c s' Hh) as [t Ht]. rewrite Ht.
  unfold Str.trim. simpl Str.trim_start. rewrite Hh, <- Ht.
  apply trim_end_idem.
Qed.

Lemma trim_nonblank s : Str.blank s = false → Str.trim s ≠ "".
Proof. unfold Str.blank. intros H Ht. by rewrite Ht in H. Qed.

Lemma missing_all_white (o : option string) :
  Str.missing o = true
  ↔ o = None ∨ ∃ s, o = Some s ∧ Str.all_white s = true.
Proof.
  rewrite missing_blank. destruct o as [s|].
  - rewrite blank_all_white. split; [eauto|].
    intros [?|(s' & ? & ?)]; congruence.
  - split; [eauto|done].
Qed.

(** ** validation.ts *)

Lemma includes_helpful h :
  includes VALID_HELPFUL_VALUES h = true ↔ h = "helpful" ∨ h = "not_helpful".
Proof.
  unfold includes, VALID_HELPFUL_VALUES; simpl. rewrite orb_false_r.
  rewrite orb_true_iff, !String.eqb_eq. done.
Qed.

Lemma helpful_rule h :
  negb (String.eqb h "helpful") && negb (String.eqb h "not_helpful") = false
  ↔ h = "helpful" ∨ h = "not_helpful".
Proof.
  destruct (String.eqb_spec h "helpful"), (String.eqb_spec h "not_helpful");
    simpl; intuition congruence.
Qed.

Lemma validateUpdateFeedback_rules u :
  validateUpdateFeedback u = first_violation update_rules u.
Proof.
  unfold validateUpdateFeedback, update_rules, first_violation.
  unfold includes, VALID_HELPFUL_VALUES; simpl.
  destruct (Update.helpful u) as [h|];
    [rewrite orb_false_r, negb_orb|];
    destruct (Update.userFeedback u) as [t|];
    rewrite ?blank_all_white; reflexivity.
Qed.

Lemma validateUpdateFeedback_None u :
  validateUpdateFeedback u = None ↔ acceptable_update u.
Proof.
  rewrite validateUpdateFeedback_rules, first_violation_None.
  unfold update_rules, acceptable_update.
  rewrite !Forall_cons, Forall_nil. destruct u as [[h|] [t|]]; simpl;
    rewrite ?helpful_rule; unfold is_Some.
  - split.
    + intros (H1 & H2 & _). repeat split; [by intros ? [= <-]..|eauto].
    + intros (H1 & H2 & _). repeat split; eauto.
  - split.
    + intros (H1 & _). repeat split; [by intros ? [= <-]|done|eauto].
    + intros (H1 & _). repeat split; eauto.
  - split.
    + intros (_ & H2 & _). repeat split; [done|by intros ? [= <-]|eauto].
    + intros (_ & H2 & _). repeat split; eauto.
  - split.
    + intros (_ & _ & ? & _). discriminate.
    + intros (_ & _ & [[? ?]|[? ?]]); discriminate.
Qed.

(** X1.  [validateUpdateFeedback] reports the first rule violated, in the
    order helpful, userFeedback, "at least one"; it returns [null] exactly
    for an update whose [helpful], if given, is one of the two literals,
    whose [userFeedback], if given, has a code unit that is not white
    space, and that gives at least one of the two. *)
Theorem validateUpdateFeedback_accepts (u : UpdateFeedbackRequest) :
  validateUpdateFeedback u = first_violation update_rules u
  ∧ (validateUpdateFeedback u = None ↔ acceptable_update u).
Proof.
  split; [apply validateUpdateFeedback_rules|apply validateUpdateFeedback_None].
Qed.

(** The create validator is the [runId] check followed by the update
    validator on the other two fields. *)
Lemma validateCreateFeedback_via_update f :
  validateCreateFeedback f
  = if Str.missing (runId f) then Some "runId is required"
    else validateUpdateFeedback (Update.mk (helpful f) (userFeedback f)).
Proof. reflexivity. Qed.

(** ** The constructors *)

Lemma resolve_baseUrl_cases (b : option string) :
  (Str.missing b = true ∧ resolve_baseUrl b = "https://api.cobbl.ai")
  ∨ (∃ s, b = Some s ∧ Str.blank s = false
          ∧ resolve_baseUrl b = Str.trim s).
Proof.
  destruct b as [s|]; [|left; done]. unfold resolve_baseUrl.
  rewrite missing_blank. unfold Str.blank.
  destruct (Str.trim s) eqn:Ht; simpl; [left; done|right].
  exists s. by rewrite Ht.
Qed.

(** X3.  The base URL a client keeps is never empty and has no white space
    at either end: it is the production origin when the configured one is
    absent or all white space, and the configured one trimmed otherwise. *)
Theorem resolve_baseUrl_clean (b : option string) :
  resolve_baseUrl b ≠ ""
  ∧ Str.trim (resolve_baseUrl b) = resolve_baseUrl b
  ∧ (Str.missing b = true → resolve_baseUrl b = "https://api.cobbl.ai")
  ∧ (∀ s, b = Some s → Str.all_white s = false →
          resolve_baseUrl b = Str.trim s).
Proof.
  destruct (resolve_baseUrl_cases b) as [[Hm Hr]|(s & -> & Hs & Hr)].
  - rewrite Hr. repeat split; try done.
    intros s -> Hw. apply missing_all_white in Hm as [?|(? & ? & ?)];
      congruence.
  - rewrite Hr. split; [by apply trim_nonblank|]. split; [apply trim_idem|].
    split; [|by intros ? [= <-] _].
    rewrite missing_blank. congruence.
Qed.

Lemma resolve_baseUrl_clean_witness :
  let b := Some "  http://localhost:5001/api  " in
  b = Some "  http://localhost:5001/api  "
  ∧ Str.all_white "  http://localhost:5001/api  " = false
  ∧ resolve_baseUrl b = "http://localhost:5001/api".
Proof.
  intros b. split; [reflexivity|]. split; [reflexivity|].
  exact (proj2 (proj2 (proj2 (resolve_baseUrl_clean b)))
           "  http://localhost:5001/api  " eq_refl eq_refl).
Defined.

(** X2.  Constructing the admin client throws [INVALID_CONFIG] with
    ["API key is required"] exactly when the key is absent or all white
    space; otherwise it succeeds, keeps the key as given and resolves the
    base URL. *)
Theorem admin_constructor (config : CobblConfig) :
  (Config.apiKey config = None
   ∨ (∃ key, Config.apiKey config = Some key ∧ Str.all_white key = true)
   ↔ Admin.new config
     = Throw (ThrowCobbl
                (mkCobblError "API key is required" INVALID_CONFIG None)))
  ∧ (∀ key,
       Config.apiKey config = Some key →
       Str.all_white key = false →
       Admin.new config
       = Return (Admin.mkClient key (resolve_baseUrl (Config.baseUrl config)))).
Proof.
  split.
  - rewrite <- missing_all_white. unfold Admin.new.
    destruct (Config.apiKey config) as [key|]; simpl; [|done].
    destruct (negb (Str.truthy key) || Str.blank key); split;
      done || discriminate.
  - intros key Hk Hw. unfold Admin.new. rewrite Hk.
    pose proof (missing_blank (Some key)) as Hm. simpl in Hm.
    by rewrite Hm, blank_all_white, Hw.
Qed.

Lemma admin_constructor_witness :
  let config := Config.mk (Some "test-api-key") (Some " ") in
  Config.apiKey config = Some "test-api-key"
  ∧ Str.all_white "test-api-key" = false
  ∧ Admin.new config
    = Return (Admin.mkClient "test-api-key" "https://api.cobbl.ai").
Proof.
  intros config. split; [reflexivity|]. split; [reflexivity|].
  exact (proj2 (admin_constructor config) "test-api-key" eq_refl eq_refl).
Defined.

(** ** The request each method issues *)

Lemma makeRequest_admin fetch this slug input log :
  Admin.makeRequest fetch this "/admin/v1/prompt/run"
    (mkRequestInit "POST"
       (stringify_object
          [("promptSlug", Some (JStr (Str.trim slug))); ("input", Some input)])
       None) log
  = (fetch (runPrompt_call this slug input),
     (log ++ [runPrompt_call this slug input])%list).
Proof.
  unfold Admin.makeRequest, runPrompt_call, spread_headers; simpl.
  by rewrite (left_id ∅ _).
Qed.

Lemma makeRequest_public fetch this path m b log :
  Public.makeRequest fetch this path (mkRequestInit m b None) log
  = (fetch (mkFetchCall (Public.baseUrl this +:+ path)
              (mkRequestInit m b
                 (Some {[ "Content-Type" := "application/json" ]}))),
     (log ++ [mkFetchCall (Public.baseUrl this +:+ path)
                (mkRequestInit m b
                   (Some {[ "Content-Type" := "application/json" ]}))])%list).
Proof.
  unfold Public.makeRequest, spread_headers; simpl.
  by rewrite (left_id ∅ _).
Qed.

(** What the [try] block of [runPrompt] does with the outcome of
    [fetch]. *)
Lemma runPrompt_try_rejected fetch this slug input log t :
  fetch (runPrompt_call this slug input) = Throw t →
  Admin.runPrompt_try fetch this slug input log
  = (Throw t, (log ++ [runPrompt_call this slug input])%list).
Proof.
  intros Hf. unfold Admin.runPrompt_try, io_bind.
  by rewrite makeRequest_admin, Hf.
Qed.

Lemma runPrompt_try_not_ok fetch this slug input log r :
  fetch (runPrompt_call this slug input) = Return r →
  ok r = false →
  ∃ t, handleErrorResponse r = Throw t
       ∧ Admin.runPrompt_try fetch this slug input log
         = (Throw t, (log ++ [runPrompt_call this slug input])%list).
Proof.
  intros Hf Hok. destruct (handleErrorResponse_throws r) as [t Ht].
  exists t. split; [exact Ht|].
  unfold Admin.runPrompt_try, io_bind.
  by rewrite makeRequest_admin, Hf, Hok; simpl; unfold io_lift; rewrite Ht.
Qed.

Lemma runPrompt_try_ok fetch this slug input log r v :
  fetch (runPrompt_call this slug input) = Return r →
  ok r = true →
  json_result r = Parsed v →
  v ≠ JNull →
  Admin.runPrompt_try fetch this slug input log
  = (Return (Run.mk (field v "runId") (field v "output")
               (field v "tokenUsage") (field v "renderedPrompt")
               (field v "promptVersion")),
     (log ++ [runPrompt_call this slug input])%list).
Proof.
  intros Hf Hok Hb Hv. unfold Admin.runPrompt_try, io_bind.
  rewrite makeRequest_admin, Hf, Hok; simpl.
  unfold io_lift, io_ret, response_json. rewrite Hb.
  by rewrite !(get_prop_field _ _ Hv).
Qed.

Lemma read_feedback_response_not_ok r log :
  ok r = false →
  ∃ t, handleErrorResponse r = Throw t
       ∧ Public.read_feedback_response r log = (Throw t, log).
Proof.
  intros Hok. destruct (handleErrorResponse_throws r) as [t Ht].
  exists t. split; [exact Ht|].
  unfold Public.read_feedback_response, io_bind, io_lift.
  by rewrite Hok; simpl; rewrite Ht.
Qed.

Lemma read_feedback_response_ok r v log :
  ok r = true →
  json_result r = Parsed v →
  v ≠ JNull →
  Public.read_feedback_response r log
  = (Return (FeedbackResponse.mk (field v "id") (field v "message")), log).
Proof.
  intros Hok Hb Hv.
  unfold Public.read_feedback_response, io_bind, io_lift, io_ret,
    response_json.
  rewrite Hok, Hb; simpl. by rewrite !(get_prop_field _ _ Hv).
Qed.

Lemma createFeedback_try_eq fetch this f rid log :
  runId f = Some rid →
  Public.createFeedback_try fetch this f log
  = match fetch (createFeedback_call this rid f) with
    | Return r =>
        Public.read_feedback_response r
          (log ++ [createFeedback_call this rid f])%list
    | Throw t => (Throw t, (log ++ [createFeedback_call this rid f])%list)
    end.
Proof.
  intros Hr. unfold Public.createFeedback_try. rewrite Hr.
  unfold io_bind. by rewrite makeRequest_public.
Qed.

Lemma updateFeedback_try_eq fetch this id u log :
  Public.updateFeedback_try fetch this id u log
  = match fetch (updateFeedback_call this id u) with
    | Return r =>
        Public.read_feedback_response r
          (log ++ [updateFeedback_call this id u])%list
    | Throw t => (Throw t, (log ++ [updateFeedback_call this id u])%list)
    end.
Proof.
  unfold Public.updateFeedback_try, io_bind. by rewrite makeRequest_public.
Qed.

(** ** Results and errors of the methods *)

(** X4.  When the answer to [runPrompt] is reported ok and its body parses
    to anything but [null], the method returns the five members of the body
    as they are (a member the body lacks is [undefined]), whatever the
    status, after issuing its one request. *)
Theorem runPrompt_returns_body_members (fetch : Fetch)
    (this : Admin.CobblAdminClient) (slug : string) (input : json)
    (log : list FetchCall) (r : Response) (v : json) :
  Str.missing (Some slug) = false →
  fetch (runPrompt_call this slug input) = Return r →
  ok r = true →
  json_result r = Parsed v →
  v ≠ JNull →
  Admin.runPrompt fetch this (Some slug) input log
  = (Return (Run.mk (field v "runId") (field v "output")
               (field v "tokenUsage") (field v "renderedPrompt")
               (field v "promptVersion")),
     (log ++ [runPrompt_call this slug input])%list).
Proof.
  intros Hs Hf Hok Hb Hv. rewrite (runPrompt_valid _ _ _ _ Hs).
  unfold try_catch.
  by rewrite (runPrompt_try_ok _ _ _ _ _ _ _ Hf Hok Hb Hv).
Qed.

Lemma runPrompt_returns_body_members_witness :
  let v := JObj {[ "runId" := JStr "run-123"; "output" := JStr "x";
                   "tokenUsage" := JObj {[ "totalTokens" := JNum 30 ]};
                   "renderedPrompt" := JStr "p" ]} in
  let r := mkResponse true 200 "OK" (Parsed v) in
  let fetch : Fetch := fun _ => Return r in
  let this := Admin.mkClient "test-api-key" "https://api.cobbl.ai" in
  Str.missing (Some "test") = false
  ∧ fetch (runPrompt_call this "test" (JObj ∅)) = Return r
  ∧ ok r = true
  ∧ json_result r = Parsed v
  ∧ v ≠ JNull
  ∧ Admin.runPrompt fetch this (Some "test") (JObj ∅) []
    = (Return (Run.mk (field v "runId") (field v "output")
                 (field v "tokenUsage") (field v "renderedPrompt")
                 (field v "promptVersion")),
       ([] ++ [runPrompt_call this "test" (JObj ∅)])%list).
Proof.
  intros v r fetch this.
  assert (H5 : v ≠ JNull) by discriminate.
  repeat (split; [reflexivity || exact H5|]).
  exact (runPrompt_returns_body_members fetch this "test" (JObj ∅) [] r v
           eq_refl eq_refl eq_refl eq_refl H5).
Defined.

(** X5.  When the answer to [createFeedback] or [updateFeedback] is
    reported ok and its body parses to anything but [null], the method
    returns the [id] and [message] members of the body as they are, after
    issuing its one request. *)
Theorem feedback_returns_body_members (fetch : Fetch)
    (this : Public.CobblPublicClient) (log : list FetchCall) (r : Response)
    (v : json) :
  ok r = true →
  json_result r = Parsed v →
  v ≠ JNull →
  (∀ f rid,
     validateCreateFeedback f = None →
     runId f = Some rid →
     fetch (createFeedback_call this rid f) = Return r →
     Public.createFeedback fetch this f log
     = (Return (FeedbackResponse.mk (field v "id") (field v "message")),
        (log ++ [createFeedback_call this rid f])%list))
  ∧ (∀ id u,
       Str.missing (Some id) = false →
       validateUpdateFeedback u = None →
       fetch (updateFeedback_call this id u) = Return r →
       Public.updateFeedback fetch this (Some id) u log
       = (Return (FeedbackResponse.mk (field v "id") (field v "message")),
          (log ++ [updateFeedback_call this id u])%list)).
Proof.
  intros Hok Hb Hv. split.
  - intros f rid Hf Hr Hfetch. rewrite (createFeedback_valid _ _ _ Hf).
    unfold try_catch. rewrite (createFeedback_try_eq _ _ _ _ _ Hr), Hfetch.
    by rewrite (read_feedback_response_ok _ _ _ Hok Hb Hv).
  - intros id u Hi Hu Hfetch. rewrite (updateFeedback_valid _ _ _ _ Hi Hu).
    unfold try_catch. rewrite updateFeedback_try_eq, Hfetch.
    by rewrite (read_feedback_response_ok _ _ _ Hok Hb Hv).
Qed.

Lemma feedback_returns_body_members_witness :
  let v := JObj {[ "id" := JStr "feedback-123";
                   "message" := JStr "Feedback updated" ]} in
  let r := mkResponse true 200 "OK" (Parsed v) in
  let fetch : Fetch := fun _ => Return r in
  let this := Public.new (Public.mkConfig None) in
  let u := Update.mk None (Some "  Too formal ") in
  ok r = true
  ∧ json_result r = Parsed v
  ∧ v ≠ JNull
  ∧ Str.missing (Some " feedback-123 ") = false
  ∧ validateUpdateFeedback u = None
  ∧ fetch (updateFeedback_call this " feedback-123 " u) = Return r
  ∧ Public.updateFeedback fetch this (Some " feedback-123 ") u []
    = (Return (FeedbackResponse.mk (field v "id") (field v "message")),
       ([] ++ [updateFeedback_call this " feedback-123 " u])%list).
Proof.
  intros v r fetch this u.
  assert (H3 : v ≠ JNull) by discriminate.
  repeat (split; [reflexivity || exact H3|]).
  exact (proj2 (feedback_returns_body_members fetch this [] r v
                  eq_refl eq_refl H3)
           " feedback-123 " u eq_refl eq_refl eq_refl).
Defined.

Lemma try_catch_only_CobblError {A} (m : IO A) operation log :
  only_CobblError (try_catch m (catch_clause operation) log).
Proof.
  unfold only_CobblError, try_catch.
  destruct (m log) as [[a|[e|msg|x]] log']; done.
Qed.

(** X6.  Whatever the input and whatever [fetch] does, a client method
    either returns a result or throws a [CobblError]: no other value
    leaves [runPrompt], [createFeedback] or [updateFeedback]. *)
Theorem methods_throw_only_CobblError (fetch : Fetch) (log : list FetchCall) :
  (∀ this promptSlug input,
     only_CobblError (Admin.runPrompt fetch this promptSlug input log))
  ∧ (∀ this f, only_CobblError (Public.createFeedback fetch this f log))
  ∧ (∀ this id u, only_CobblError (Public.updateFeedback fetch this id u log)).
Proof.
  repeat split.
  - intros this [slug|] input; unfold Admin.runPrompt; [|done].
    destruct (negb (Str.truthy slug) || Str.blank slug); [done|].
    apply try_catch_only_CobblError.
  - intros this f. unfold Public.createFeedback.
    destruct (validateCreateFeedback f) as [reason|];
      [destruct (Str.truthy reason); [done|]|];
      apply try_catch_only_CobblError.
  - intros this [id|] u; unfold Public.updateFeedback; [|done].
    destruct (negb (Str.truthy id) || Str.blank id); [done|].
    destruct (validateUpdateFeedback u) as [reason|];
      [destruct (Str.truthy reason); [done|]|];
      apply try_catch_only_CobblError.
Qed.

(** X7.  When the answer is not reported ok, a method never returns a
    result: it throws what the [catch] clause makes of what the classifier
    threw, and when that is a [CobblError] it is thrown as it is. *)
Theorem not_ok_response_throws (fetch : Fetch) (log : list FetchCall)
    (r : Response) :
  ok r = false →
  ∃ t, handleErrorResponse r = Throw t
  ∧ (∀ operation e,
       t = ThrowCobbl e → rethrown_or_wrapped operation t = ThrowCobbl e)
  ∧ (∀ this slug input,
       Str.missing (Some slug) = false →
       fetch (runPrompt_call this slug input) = Return r →
       Admin.runPrompt fetch this (Some slug) input log
       = (Throw (rethrown_or_wrapped "run prompt" t),
          (log ++ [runPrompt_call this slug input])%list))
  ∧ (∀ this f rid,
       validateCreateFeedback f = None →
       runId f = Some rid →
       fetch (createFeedback_call this rid f) = Return r →
       Public.createFeedback fetch this f log
       = (Throw (rethrown_or_wrapped "create feedback" t),
          (log ++ [createFeedback_call this rid f])%list))
  ∧ (∀ this id u,
       Str.missing (Some id) = false →
       validateUpdateFeedback u = None →
       fetch (updateFeedback_call this id u) = Return r →
       Public.updateFeedback fetch this (Some id) u log
       = (Throw (rethrown_or_wrapped "update feedback" t),
          (log ++ [updateFeedback_call this id u])%list)).
Proof.
  intros Hok. destruct (handleErrorResponse_throws r) as [t Ht].
  exists t. split; [exact Ht|]. split; [by intros operation e ->|].
  repeat split.
  - intros this slug input Hs Hf.
    destruct (runPrompt_try_not_ok _ _ _ _ log _ Hf Hok) as (t' & Ht' & Hrun).
    assert (t' = t) as -> by congruence.
    rewrite (runPrompt_valid _ _ _ _ Hs), <- catch_clause_spec.
    by apply try_catch_throw.
  - intros this f rid Hv Hr Hf.
    rewrite (createFeedback_valid _ _ _ Hv), <- catch_clause_spec.
    apply try_catch_throw. rewrite (createFeedback_try_eq _ _ _ _ _ Hr), Hf.
    destruct (read_feedback_response_not_ok r
                (log ++ [createFeedback_call this rid f])%list Hok)
      as (t' & Ht' & Hread).
    by assert (t' = t) as -> by congruence.
  - intros this id u Hi Hu Hf.
    rewrite (updateFeedback_valid _ _ _ _ Hi Hu), <- catch_clause_spec.
    apply try_catch_throw. rewrite updateFeedback_try_eq, Hf.
    destruct (read_feedback_response_not_ok r
                (log ++ [updateFeedback_call this id u])%list Hok)
      as (t' & Ht' & Hread).
    by assert (t' = t) as -> by congruence.
Qed.

Lemma not_ok_response_throws_witness :
  let r := mkResponse false 404 "Not Found"
             (Parsed (JObj {[ "error" := JStr "Prompt not found" ]})) in
  let fetch : Fetch := fun _ => Return r in
  ok r = false
  ∧ ∃ t, handleErrorResponse r = Throw t
    ∧ (∀ operation e,
       t = ThrowCobbl e → rethrown_or_wrapped operation t = ThrowCobbl e)
    ∧ (∀ this slug input,
         Str.missing (Some slug) = false →
         fetch (runPrompt_call this slug input) = Return r →
         Admin.runPrompt fetch this (Some slug) input []
         = (Throw (rethrown_or_wrapped "run prompt" t),
            ([] ++ [runPrompt_call this slug input])%list))
    ∧ (∀ this f rid,
         validateCreateFeedback f = None →
         runId f = Some rid →
         fetch (createFeedback_call this rid f) = Return r →
         Public.createFeedback fetch this f []
         = (Throw (rethrown_or_wrapped "create feedback" t),
            ([] ++ [createFeedback_call this rid f])%list))
    ∧ (∀ this id u,
         Str.missing (Some id) = false →
         validateUpdateFeedback u = None →
         fetch (updateFeedback_call this id u) = Return r →
         Public.updateFeedback fetch this (Some id) u []
         = (Throw (rethrown_or_wrapped "update feedback" t),
            ([] ++ [updateFeedback_call this id u])%list)).
Proof.
  intros r fetch. split; [reflexivity|].
  exact (not_ok_response_throws fetch [] r eq_refl).
Defined.

(** ** What is sent *)


Lemma createFeedback_try_issues fetch this f rid log :
  runId f = Some rid →
  (Public.createFeedback_try fetch this f log).2
  = (log ++ [createFeedback_call this rid f])%list.
Proof.
  intros Hr. rewrite (createFeedback_try_eq _ _ _ _ _ Hr).
  destruct (fetch _); [apply read_feedback_response_log|reflexivity].
Qed.

Lemma updateFeedback_try_issues fetch this id u log :
  (Public.updateFeedback_try fetch this id u log).2
  = (log ++ [updateFeedback_call this id u])%list.
Proof.
  rewrite updateFeedback_try_eq.
  destruct (fetch _); [apply read_feedback_response_log|reflexivity].
Qed.



(** X9.  For input that passes validation, whatever [fetch] does, each
    feedback method issues exactly one request, with [Content-Type] as its
    only header (no [Authorization] is ever sent): [createFeedback] a POST
    to the base URL followed by [/public/v1/feedback], [updateFeedback] a
    PATCH to the base URL followed by [/public/v1/feedback/] and the
    trimmed id. *)
Theorem feedback_request (fetch : Fetch) (this : Public.CobblPublicClient)
    (log : list FetchCall) :
  (∀ f rid,
     validateCreateFeedback f = None →
     runId f = Some rid →
     (Public.createFeedback fetch this f log).2
     = (log ++ [createFeedback_call this rid f])%list)
  ∧ (∀ id u,
       Str.missing (Some id) = false →
       validateUpdateFeedback u = None →
       (Public.updateFeedback fetch this (Some id) u log).2
       = (log ++ [updateFeedback_call this id u])%list
       ∧ Str.trim id ≠ "")
  ∧ (∀ rid f id u call,
       call = createFeedback_call this rid f
       ∨ call = updateFeedback_call this id u →
       ∃ hs, headers (init call) = Some hs
             ∧ hs !! "Authorization" = None
             ∧ hs !! "Content-Type" = Some "application/json").
Proof.
  split; [|split].
  - intros f rid Hf Hr.
    rewrite (createFeedback_valid _ _ _ Hf), try_catch_log.
    by apply createFeedback_try_issues.
  - intros id u Hi Hu. split.
    + rewrite (updateFeedback_valid _ _ _ _ Hi Hu), try_catch_log.
      apply updateFeedback_try_issues.
    + apply trim_nonblank. rewrite missing_blank in Hi. exact Hi.
  - intros rid f id u call [->| ->]; eexists; repeat split; reflexivity.
Qed.

Lemma feedback_request_witness :
  let fetch : Fetch := fun _ => Throw (ThrowError "Network failure") in
  let this := Public.new (Public.mkConfig (Some "http://localhost:5001")) in
  let u := Update.mk (Some "helpful") None in
  Str.missing (Some " fb-1 ") = false
  ∧ validateUpdateFeedback u = None
  ∧ (Public.updateFeedback fetch this (Some " fb-1 ") u []).2
    = ([] ++ [updateFeedback_call this " fb-1 " u])%list
  ∧ Str.trim " fb-1 " ≠ "".
Proof.
  intros fetch this u. split; [reflexivity|]. split; [reflexivity|].
  exact (proj1 (proj2 (feedback_request fetch this []))
           " fb-1 " u eq_refl eq_refl).
Defined.

Lemma validateCreateFeedback_fields f :
  validateCreateFeedback f = None →
  (∃ rid, runId f = Some rid ∧ Str.blank rid = false)
  ∧ acceptable_update (Update.mk (helpful f) (userFeedback f)).
Proof.
  intros Hf. split; [by apply validateCreateFeedback_runId|].
  apply validateUpdateFeedback_None.
  rewrite validateCreateFeedback_via_update in Hf.
  by destruct (Str.missing (runId f)).
Qed.

(** A string the clients send: not empty, no white space at either end. *)
Lemma trimmed_clean s :
  Str.all_white s = false →
  Str.trim s ≠ "" ∧ Str.trim (Str.trim s) = Str.trim s.
Proof.
  intros Hs. split; [|apply trim_idem].
  apply trim_nonblank. by rewrite blank_all_white.
Qed.

Lemma acceptable_members_clean (u : UpdateFeedbackRequest) k x :
  acceptable_update u →
  (if decide (k = "helpful") then JStr <$> Update.helpful u
   else if decide (k = "userFeedback")
        then JStr ∘ Str.trim <$> Update.userFeedback u
        else None) = Some x →
  ∃ s, x = JStr s ∧ s ≠ "" ∧ Str.trim s = s.
Proof.
  intros (Hh & Hu & _) Hx. repeat case_decide.
  - destruct (Update.helpful u) as [h|]; simplify_eq/=.
    exists h. split; [done|].
    destruct (Hh h eq_refl) as [-> | ->]; split; done.
  - destruct (Update.userFeedback u) as [t|]; simplify_eq/=.
    exists (Str.trim t). split; [done|]. by apply trimmed_clean, Hu.
  - discriminate.
Qed.

(** X10.  Every member of the body a feedback method sends is a string
    that is not empty and has no white space at either end. *)
Theorem feedback_body_strings_clean (fetch : Fetch)
    (this : Public.CobblPublicClient) (log : list FetchCall) :
  (∀ f,
     validateCreateFeedback f = None →
     ∃ call m,
       (Public.createFeedback fetch this f log).2 = (log ++ [call])%list
       ∧ body (init call) = JObj m
       ∧ ∀ k x, m !! k = Some x →
                ∃ s, x = JStr s ∧ s ≠ "" ∧ Str.trim s = s)
  ∧ (∀ id u,
       Str.missing (Some id) = false →
       validateUpdateFeedback u = None →
       ∃ call m,
         (Public.updateFeedback fetch this (Some id) u log).2
         = (log ++ [call])%list
         ∧ body (init call) = JObj m
         ∧ ∀ k x, m !! k = Some x →
                  ∃ s, x = JStr s ∧ s ≠ "" ∧ Str.trim s = s).
Proof.
  split.
  - intros f Hf.
    destruct (validateCreateFeedback_fields _ Hf) as ((rid & Hr & Hb) & Hacc).
    destruct (create_body_lookup rid (helpful f) (userFeedback f))
      as (m & Hm & Hk).
    exists (createFeedback_call this rid f), m. split; [|split; [exact Hm|]].
    + rewrite (createFeedback_valid _ _ _ Hf), try_catch_log.
      by apply createFeedback_try_issues.
    + intros k x. rewrite Hk. case_decide.
      * intros [= <-]. exists (Str.trim rid). split; [done|].
        apply trimmed_clean. by rewrite <- blank_all_white.
      * apply (acceptable_members_clean _ k x Hacc).
  - intros id u Hi Hu.
    destruct (update_body_lookup (Update.helpful u) (Update.userFeedback u))
      as (m & Hm & Hk).
    exists (updateFeedback_call this id u), m. split; [|split; [exact Hm|]].
    + rewrite (updateFeedback_valid _ _ _ _ Hi Hu), try_catch_log.
      apply updateFeedback_try_issues.
    + intros k x. rewrite Hk.
      apply acceptable_members_clean. by apply validateUpdateFeedback_None.
Qed.

Lemma feedback_body_strings_clean_witness :
  let fetch : Fetch := fun _ => Throw (ThrowError "Network failure") in
  let this := Public.new (Public.mkConfig None) in
  let f := mkCreateFeedbackRequest (Some "  run-123  ") (Some "helpful")
             (Some "  Great response!  ") in
  validateCreateFeedback f = None
  ∧ ∃ call m,
      (Public.createFeedback fetch this f []).2 = ([] ++ [call])%list
      ∧ body (init call) = JObj m
      ∧ ∀ k x, m !! k = Some x →
               ∃ s, x = JStr s ∧ s ≠ "" ∧ Str.trim s = s.
Proof.
  intros fetch this f. split; [reflexivity|].
  exact (proj1 (feedback_body_strings_clean fetch this []) f eq_refl).
Defined.

(** ** errors.ts *)

Lemma status_table_response_code s : status_table s ∈ response_codes.
Proof.
  unfold status_table, response_codes.
  repeat case_match; set_solver.
Qed.

Lemma json_size_pos v : (1 ≤ json_size v)%nat.
Proof. destruct v; simpl; lia. Qed.

(** The only thing [ToString] throws is its own [TypeError]. *)
Lemma to_string_throws_sized (n : nat) :
  ∀ v, (json_size v ≤ n)%nat →
       ∀ t, Js.to_string v = Throw t → t = Js.not_primitive_error.
Proof.
  induction n as [|n IH]; intros v Hn t.
  { pose proof (json_size_pos v). lia. }
  destruct v as [| [|] | k | s | l | m]; simpl; try discriminate.
  - match goal with
    | |- match ?f l with Return _ => _ | Throw _ => _ end = _ → _ =>
        set (elems := f)
    end.
    assert (Hel : ∀ l', (list_sum (map json_size l') ≤ n)%nat →
              ∀ t', elems l' = Throw t' → t' = Js.not_primitive_error).
    { induction l' as [|x l' IHl]; intros Hl t'; [discriminate|].
      change (elems (x :: l'))
        with (match match x with
                    | JNull => Return ""
                    | _ => Js.to_string x
                    end
              with
              | Return sx =>
                  match elems l' with
                  | Return ss => Return (sx :: ss)
                  | Throw t => Throw t
                  end
              | Throw t => Throw t
              end).
      simpl in Hl.
      assert (Hx : ∀ tx, Js.to_string x = Throw tx →
                         tx = Js.not_primitive_error)
        by (apply IH; lia).
      assert (Hrest : ∀ tl, elems l' = Throw tl →
                            tl = Js.not_primitive_error)
        by (apply IHl; lia).
      destruct (match x with JNull => Return "" | _ => Js.to_string x end)
        as [sx|tx] eqn:Hs.
      - destruct (elems l') as [ss|tl];
          [discriminate|intros [= <-]; by apply Hrest].
      - intros [= <-]. destruct x; [discriminate Hs|..]; apply Hx; exact Hs. }
    simpl in Hn. destruct (elems l) as [ss|tl] eqn:Hl; [discriminate|].
    intros [= <-]. apply (Hel l); [lia|done].
  - destruct (m !! "toString"); [|discriminate]. by intros [= <-].
Qed.

Lemma to_string_throws v t :
  Js.to_string v = Throw t → t = Js.not_primitive_error.
Proof. by apply (to_string_throws_sized (json_size v)). Qed.

(** X11.  Whenever the classifier throws a [CobblError], its code is one
    of the eight that stand for an answer of the server, never
    [NETWORK_ERROR] or [INVALID_CONFIG]: [API_ERROR] when the body did not
    parse, and the table's code for the status when it did. *)
Theorem classifier_codes (r : Response) (e : CobblError) :
  handleErrorResponse r = Throw (ThrowCobbl e) →
  code e ∈ response_codes
  ∧ code e ≠ NETWORK_ERROR
  ∧ code e ≠ INVALID_CONFIG
  ∧ match json_result r with
    | ParseFails _ => code e = API_ERROR
    | Parsed _ => code e = status_table (status r)
    end.
Proof.
  intros He.
  assert (Hc : match json_result r with
               | ParseFails _ => code e = API_ERROR
               | Parsed _ => code e = status_table (status r)
               end).
  { destruct r as [o s st [v|msg]]; simpl in *.
    - revert He. destruct v; [discriminate|..];
        (rewrite handleErrorResponse_parsed by discriminate;
         destruct (Js.to_string _) as [text|t] eqn:Hts; simpl; intros He;
         [by simplify_eq|];
         apply to_string_throws in Hts; subst t; discriminate).
    - unfold handleErrorResponse in He; simpl in He. by simplify_eq. }
  assert (Hin : code e ∈ response_codes).
  { destruct (json_result r); rewrite Hc;
      [apply status_table_response_code|unfold response_codes; set_solver]. }
  split; [exact Hin|]. split; [|split; [|exact Hc]].
  - intros Heq. rewrite Heq in Hin. unfold response_codes in Hin.
    rewrite !elem_of_cons, elem_of_nil in Hin. intuition discriminate.
  - intros Heq. rewrite Heq in Hin. unfold response_codes in Hin.
    rewrite !elem_of_cons, elem_of_nil in Hin. intuition discriminate.
Qed.

Lemma classifier_codes_witness :
  let r := mkResponse false 503 "Service Unavailable"
             (Parsed (JObj {[ "message" := JStr "Service error" ]})) in
  let e := mkCobblError "Service error" SERVER_ERROR None in
  handleErrorResponse r = Throw (ThrowCobbl e)
  ∧ code e ∈ response_codes
  ∧ code e ≠ NETWORK_ERROR
  ∧ code e ≠ INVALID_CONFIG
  ∧ code e = status_table (status r).
Proof.
  intros r e. split; [reflexivity|].
  exact (classifier_codes r e eq_refl).
Defined.





Lemma selected_message_strings (m : gmap string json) :
  (∀ x, m !! "error" = Some x → ∃ s, x = JStr s) →
  (∀ x, m !! "message" = Some x → ∃ s, x = JStr s) →
  ∃ s, selected_message (JObj m) = JStr s
       ∧ s ≠ ""
       ∧ (m !! "error" = Some (JStr s) ∨ m !! "message" = Some (JStr s)
          ∨ s = "Unknown error").
Proof.
  intros He Hm. unfold selected_message; simpl.
  destruct (m !! "error") as [e|] eqn:Ee;
    [destruct (He e eq_refl) as [se ->]; destruct se as [|c se]; simpl|];
    try (eexists; split; [reflexivity|]; split; [done|]; by eauto).
  all: destruct (m !! "message") as [x|] eqn:Em;
    [destruct (Hm x eq_refl) as [sm ->]; destruct sm as [|c sm]; simpl|];
    eexists; (split; [reflexivity|]); (split; [done|]); by eauto.
Qed.

(** X13.  When the body of an error response is a JSON object whose
    [error] and [message] members, if any, are strings, the classifier
    always throws a [CobblError]: its code is the table's code for the
    status, and its message is never empty (an empty member is passed
    over): it is the [error] member, the [message] member or
    ["Unknown error"]. *)
Theorem classifier_on_contract_body (r : Response) (m : gmap string json) :
  json_result r = Parsed (JObj m) →
  (∀ x, m !! "error" = Some x → ∃ s, x = JStr s) →
  (∀ x, m !! "message" = Some x → ∃ s, x = JStr s) →
  ∃ text,
    handleErrorResponse r
    = Throw (ThrowCobbl
               (mkCobblError text (status_table (status r))
                  (attached_details (status r) (JObj m))))
    ∧ text ≠ ""
    ∧ (m !! "error" = Some (JStr text) ∨ m !! "message" = Some (JStr text)
       ∨ text = "Unknown error").
Proof.
  intros Hb He Hm. destruct r as [o s st b]; simpl in *; subst b.
  destruct (selected_message_strings m He Hm) as (text & Hsel & Hne & Hfrom).
  exists text. split; [|by split].
  rewrite handleErrorResponse_parsed by discriminate. by rewrite Hsel.
Qed.

Lemma classifier_on_contract_body_witness :
  let m : gmap string json :=
    {[ "error" := JStr ""; "message" := JStr "Prompt is disabled" ]} in
  let r := mkResponse false 403 "Forbidden" (Parsed (JObj m)) in
  json_result r = Parsed (JObj m)
  ∧ (∀ x, m !! "error" = Some x → ∃ s, x = JStr s)
  ∧ (∀ x, m !! "message" = Some x → ∃ s, x = JStr s)
  ∧ ∃ text,
      handleErrorResponse r
      = Throw (ThrowCobbl
                 (mkCobblError text (status_table (status r))
                    (attached_details (status r) (JObj m))))
      ∧ text ≠ ""
      ∧ (m !! "error" = Some (JStr text) ∨ m !! "message" = Some (JStr text)
         ∨ text = "Unknown error").
Proof.
  intros m r.
  assert (H2 : ∀ x, m !! "error" = Some x → ∃ s, x = JStr s).
  { intros x Hx. vm_compute in Hx. injection Hx as <-. by eexists. }
  assert (H3 : ∀ x, m !! "message" = Some x → ∃ s, x = JStr s).
  { intros x Hx. vm_compute in Hx. injection Hx as <-. by eexists. }
  split; [reflexivity|]. split; [exact H2|]. split; [exact H3|].
  exact (classifier_on_contract_body r m eq_refl H2 H3).
Defined.
